(** * generate_pages.py: README extraction and static page assembly

    A shallow embedding of [src/generate_pages.py] and the properties its
    specification states about it.

    Python [str] values are sequences of Unicode code points: a character is
    a code point of type [N] and a string is a [list N].  ASCII text is
    written with [lit]; the few characters of the templates outside ASCII
    are given by their code point.  A [Dict[int, str]] is a [gmap Z str]. *)

From Stdlib Require Import ZArith NArith Ascii String Decimal DecimalString DecimalPos.
From stdpp Require Import gmap list strings.

Local Open Scope N_scope.

Abbreviation char := N (only parsing).
Abbreviation str := (list N) (only parsing).

(** ** Text *)

Module Text.

(** A Python string literal over ASCII. *)
Definition lit (s : string) : str := N_of_ascii <$> list_ascii_of_string s.

Definition dq : str := [34].      (* the double quote *)
Definition nl : char := 10.       (* '\n' *)

(** [str.isspace] on one character, which is also what [\s] of [re] tests on
    a [str] pattern: the code points U+0009..U+000D, U+001C..U+0020, U+0085,
    U+00A0, U+1680, U+2000..U+200A, U+2028, U+2029, U+202F, U+205F, U+3000. *)
Definition is_space (c : char) : bool :=
  ((9 <=? c) && (c <=? 13)) || ((28 <=? c) && (c <=? 32))
  || (c =? 133) || (c =? 160) || (c =? 5760)
  || ((8192 <=? c) && (c <=? 8202))
  || (c =? 8232) || (c =? 8233) || (c =? 8239) || (c =? 8287)
  || (c =? 12288).

Fixpoint dropwhile (p : char -> bool) (s : str) : str :=
  match s with
  | [] => []
  | c :: s' => if p c then dropwhile p s' else s
  end.

(** [s.lstrip()], [s.rstrip()], [s.strip()] *)
Definition lstrip (s : str) : str := dropwhile is_space s.
Definition rstrip (s : str) : str := rev (dropwhile is_space (rev s)).
Definition strip (s : str) : str := rstrip (lstrip s).

(** [s.startswith(p)] *)
Fixpoint startswith (p s : str) : bool :=
  match p, s with
  | [], _ => true
  | a :: p', b :: s' => (a =? b) && startswith p' s'
  | _ :: _, [] => false
  end.

(** [s.split(sep)] for a one-character separator: the pieces between the
    separators, empty pieces kept, never an empty list. *)
Fixpoint split_on (sep : char) (s : str) : list str :=
  match s with
  | [] => [[]]
  | c :: s' =>
      if c =? sep then [] :: split_on sep s'
      else match split_on sep s' with
           | piece :: pieces => (c :: piece) :: pieces
           | [] => [[c]]
           end
  end.

(** [s.replace(old, new)] for a non-empty [old]: the occurrences of [old]
    are found left to right without overlap.  [skip] counts the characters
    of an occurrence that are still to be passed over. *)
Fixpoint replace_from (old new : str) (skip : nat) (s : str) : str :=
  match s with
  | [] => []
  | c :: s' =>
      match skip with
      | S k => replace_from old new k s'
      | O => if startswith old s
             then new ++ replace_from old new (length old - 1) s'
             else c :: replace_from old new 0 s'
      end
  end.

Definition replace (old new s : str) : str := replace_from old new 0 s.

(** [s.endswith(p)] *)
Definition endswith (p s : str) : bool := startswith (rev p) (rev s).

(** [sub in s] *)
Fixpoint contains (sub s : str) : bool :=
  startswith sub s || match s with [] => false | _ :: s' => contains sub s' end.

(** [s.count(sub)] would skip overlapping occurrences; [occurrences] counts
    every position at which [sub] starts. *)
Fixpoint occurrences (sub s : str) : nat :=
  ((if startswith sub s then 1 else 0) +
   match s with [] => 0 | _ :: s' => occurrences sub s' end)%nat.

Fixpoint uint_digits (u : Decimal.uint) : str :=
  match u with
  | Nil => []
  | D0 u => 48 :: uint_digits u
  | D1 u => 49 :: uint_digits u
  | D2 u => 50 :: uint_digits u
  | D3 u => 51 :: uint_digits u
  | D4 u => 52 :: uint_digits u
  | D5 u => 53 :: uint_digits u
  | D6 u => 54 :: uint_digits u
  | D7 u => 55 :: uint_digits u
  | D8 u => 56 :: uint_digits u
  | D9 u => 57 :: uint_digits u
  end.

(** [str(n)] of an [int], which is what [f'{n}'] inserts: the digits [0]
    to [9] are 48 to 57, the minus sign is 45. *)
Definition str_of_int (n : Z) : str :=
  match n with
  | Z0 => [48]
  | Zpos p => uint_digits (Pos.to_uint p)
  | Zneg p => 45 :: uint_digits (Pos.to_uint p)
  end.

End Text.

Import Text.

(** ** The Unicode decimal-digit table

    [\d] of [re] and [int] consult the decimal-digit property (category Nd)
    of the interpreter's Unicode database, which is not part of the
    repository: the table is a parameter.  [DecimalLaws] states what the
    development uses of it. *)

Class UnicodeDecimal := {
  is_decimal : char -> bool;      (* the character is a decimal digit *)
  decimal_value : char -> Z       (* its value, 0..9 *)
}.

Class DecimalLaws (U : UnicodeDecimal) : Prop := {
  decimal_ascii : forall c, c < 128 -> is_decimal c = (48 <=? c) && (c <=? 57);
  decimal_value_ascii : forall c, 48 <= c <= 57 -> decimal_value c = (Z.of_N c - 48)%Z;
  decimal_not_space : forall c, is_decimal c = true -> is_space c = false
}.

(** The table restricted to ASCII, used to run the definitions. *)
Definition ascii_decimal : UnicodeDecimal :=
  {| is_decimal := fun c => (48 <=? c) && (c <=? 57);
     decimal_value := fun c => (Z.of_N c - 48)%Z |}.

(** [int(s)] on a string of decimal digits.  (The bound that recent
    interpreters put on the number of digits [int] accepts, 4300 unless it
    is configured, is not modelled.) *)
Definition int_of_digits `{U : UnicodeDecimal} (s : str) : Z :=
  fold_left (fun acc d => (10 * acc + decimal_value d)%Z) s 0%Z.

(** ** Regular expressions

    The fragment of [re] that the pattern of [parse_readme] is written in,
    with the matching order of the backtracking engine: alternatives left to
    right, greedy repetition longest first, lazy repetition shortest first.
    Repetition is over a character class, as everywhere in the pattern. *)

Module Re.

Inductive regex : Type :=
  | REps                                                   (* empty pattern *)
  | RChar (a : char)                                       (* one literal character *)
  | RSeq (r1 r2 : regex)                                   (* r1 r2 *)
  | RAlt (r1 r2 : regex)                                   (* r1|r2 *)
  | RGroup (n : nat) (r : regex)                           (* capturing group number n *)
  | RGreedy (p : char -> bool) (lo : nat) (hi : option nat) (* c{lo,hi}, c+, c* *)
  | RLazy (p : char -> bool) (lo : nat) (hi : option nat)   (* c{lo,hi}?, c*? *)
  | RBol                                                   (* ^ under re.MULTILINE *)
  | REnd                                                   (* \Z *)
  | RLook (r : regex).                                     (* (?=r) *)

Definition rcat (rs : list regex) : regex := foldr RSeq REps rs.
Definition rlit (s : str) : regex := rcat (RChar <$> s).

(** A position in the subject: the character before it (for [^]), its
    offset, and the text from it on. *)
Record cursor := Cursor { c_prev : option char; c_pos : nat; c_rest : str }.

Definition start_of (s : str) : cursor := Cursor None 0 s.

Abbreviation outcome := (option (cursor * gmap nat (list N))) (only parsing).

Definition below (n : nat) (hi : option nat) : bool :=
  match hi with
  | Some h => (n <? h)%nat
  | None => true
  end.

(** Greedy repetition: take characters of the class while possible, then
    give the rest of the pattern [k] the longest run first and shorter runs
    on failure, never fewer than [lo] characters. *)
Fixpoint greedy (p : char -> bool) (lo : nat) (hi : option nat)
    (k : cursor -> outcome) (n : nat)
    (prev : option char) (pos : nat) (rest : str) : outcome :=
  let stop := if (lo <=? n)%nat then k (Cursor prev pos rest) else None in
  match rest with
  | x :: rest' =>
      if p x && below n hi then
        match greedy p lo hi k (S n) (Some x) (S pos) rest' with
        | Some res => Some res
        | None => stop
        end
      else stop
  | [] => stop
  end.

(** Lazy repetition: give [k] the shortest run first and take one more
    character of the class on failure. *)
Fixpoint lazy (p : char -> bool) (lo : nat) (hi : option nat)
    (k : cursor -> outcome) (n : nat)
    (prev : option char) (pos : nat) (rest : str) : outcome :=
  match (if (lo <=? n)%nat then k (Cursor prev pos rest) else None) with
  | Some res => Some res
  | None =>
      match rest with
      | x :: rest' =>
          if p x && below n hi then lazy p lo hi k (S n) (Some x) (S pos) rest'
          else None
      | [] => None
      end
  end.

(** [^] with [re.MULTILINE]: at the start of the subject or after a newline. *)
Definition at_bol (c : cursor) : bool :=
  match c_prev c with
  | None => true
  | Some x => x =? nl
  end.

(** [\Z]: at the end of the subject. *)
Definition at_end (c : cursor) : bool :=
  match c_rest c with
  | [] => true
  | _ :: _ => false
  end.

(** [run r k c g]: match [r] at [c] with the groups [g] captured so far and
    continue with [k]; [None] when every alternative fails. *)
Fixpoint run (r : regex) (k : cursor -> gmap nat (list N) -> outcome)
    (c : cursor) (g : gmap nat (list N)) : outcome :=
  match r with
  | REps => k c g
  | RChar a =>
      match c_rest c with
      | x :: rest' => if x =? a then k (Cursor (Some x) (S (c_pos c)) rest') g else None
      | [] => None
      end
  | RSeq r1 r2 => run r1 (run r2 k) c g
  | RAlt r1 r2 =>
      match run r1 k c g with
      | Some res => Some res
      | None => run r2 k c g
      end
  | RGroup n r1 =>
      run r1 (fun c' g' => k c' (<[n := take (c_pos c' - c_pos c) (c_rest c)]> g')) c g
  | RGreedy p lo hi =>
      greedy p lo hi (fun c' => k c' g) 0 (c_prev c) (c_pos c) (c_rest c)
  | RLazy p lo hi =>
      lazy p lo hi (fun c' => k c' g) 0 (c_prev c) (c_pos c) (c_rest c)
  | RBol => if at_bol c then k c g else None
  | REnd => if at_end c then k c g else None
  | RLook r1 =>
      match run r1 (fun c' g' => Some (c', g')) c g with
      | Some (_, g') => k c g'
      | None => None
      end
  end.

(** A match object: its span and its groups. *)
Record rmatch := Match { m_start : nat; m_end : nat; m_groups : gmap nat (list N) }.

(** [match.group(n)]; every group of the pattern below takes part in every
    match, so the [None] of a group that did not is never seen. *)
Definition group (m : rmatch) (n : nat) : str := default [] (m_groups m !! n).

(** The match of [r] that starts at [c], if there is one. *)
Definition match_at (r : regex) (c : cursor) : option rmatch :=
  match run r (fun c' g => Some (c', g)) c ∅ with
  | Some (c', g) => Some (Match (c_pos c) (c_pos c') g)
  | None => None
  end.

(** [re.finditer]: the non-overlapping matches from left to right.  Each
    search starts where the previous match ended; [skip] counts the
    characters of the previous match that are still to be passed over.  The
    search tries every offset up to and including the end of the subject.
    (After an empty match the engine would look again at the same offset for
    a non-empty one; the pattern of [parse_readme] has no empty match.) *)
Fixpoint scan (r : regex) (skip : nat)
    (prev : option char) (pos : nat) (rest : str) : list rmatch :=
  match skip with
  | S k =>
      match rest with
      | x :: rest' => scan r k (Some x) (S pos) rest'
      | [] => []
      end
  | O =>
      match match_at r (Cursor prev pos rest) with
      | Some m =>
          m :: match rest with
               | x :: rest' => scan r (m_end m - pos - 1) (Some x) (S pos) rest'
               | [] => []
               end
      | None =>
          match rest with
          | x :: rest' => scan r 0 (Some x) (S pos) rest'
          | [] => []
          end
      end
  end.

Definition finditer (r : regex) (s : str) : list rmatch := scan r 0 None 0 s.

End Re.

Import Re.

(** ** parse_readme *)

Definition is_hash (c : char) : bool := c =? 35.      (* [#] *)
Definition any_char (c : char) : bool := true.      (* [.] under re.DOTALL *)

(** [\n#{1,2}\s+Day\s+\d+], the start of the next day section *)
Definition next_header `{U : UnicodeDecimal} : regex :=
  rcat [RChar nl; RGreedy is_hash 1 (Some 2%nat); RGreedy is_space 1 None;
        rlit (lit "Day"); RGreedy is_space 1 None; RGreedy is_decimal 1 None].

(** The pattern of [parse_readme]:
    [(?:^|\n)(#{1,2})\s+Day\s+(\d+)(?:\s*:\s*|\s*\n)(.*?)(?=(?:\n#{1,2}\s+Day\s+\d+|\Z))]
    compiled with [re.DOTALL | re.MULTILINE]. *)
Definition pattern `{U : UnicodeDecimal} : regex :=
  rcat [RAlt RBol (RChar nl);
        RGroup 1 (RGreedy is_hash 1 (Some 2%nat));
        RGreedy is_space 1 None;
        rlit (lit "Day");
        RGreedy is_space 1 None;
        RGroup 2 (RGreedy is_decimal 1 None);
        RAlt (rcat [RGreedy is_space 0 None; RChar 58 (* [:] *); RGreedy is_space 0 None])
             (rcat [RGreedy is_space 0 None; RChar nl]);
        RGroup 3 (RLazy any_char 0 None);
        RLook (RAlt next_header REnd)].

(** The loop over the matches: [day_descriptions[day_num] = description]. *)
Definition record_match `{U : UnicodeDecimal}
    (day_descriptions : gmap Z (list N)) (m : rmatch) : gmap Z (list N) :=
  let day_num := int_of_digits (group m 2) in
  let description := strip (group m 3) in
  <[day_num := description]> day_descriptions.

(** [parse_readme]; [readme] is the text of README.md, [None] when the file
    does not exist. *)
Definition parse_readme `{U : UnicodeDecimal} (readme : option (list N)) : gmap Z (list N) :=
  match readme with
  | None => ∅
  | Some content => fold_left record_match (finditer pattern content) ∅
  end.

(** ** get_language *)

(** [s.rfind(c)] for one character: the index of the last occurrence, or -1. *)
Fixpoint rfind (c : char) (s : str) : Z :=
  match s with
  | [] => (-1)%Z
  | x :: s' =>
      let i := rfind c s' in
      if (0 <=? i)%Z then (i + 1)%Z
      else if x =? c then 0%Z else (-1)%Z
  end.

(** [Path(filename).name] with POSIX separators: the last component of the
    path, where empty components and [.] components do not count; empty
    when there is none.  47 is [/] and 46 is [.]. *)
Definition path_name (filename : str) : str :=
  default [] (last (filter (fun x => x <> [] /\ x <> lit ".") (split_on 47 filename))).

(** [Path(filename).suffix]: from the last dot of the name on, unless the
    name has no dot, starts with its only dot or ends with a dot (pathlib up
    to Python 3.13; the suffixes of the table are the same later). *)
Definition path_suffix (filename : str) : str :=
  let name := path_name filename in
  let i := rfind 46 name in
  if (0 <? i)%Z && (i <? Z.of_nat (length name) - 1)%Z
  then drop (Z.to_nat i) name
  else [].

Definition ext_map : gmap (list N) (list N) :=
  list_to_map [
    (lit ".cu", lit "cuda");
    (lit ".cpp", lit "cpp");
    (lit ".c", lit "c");
    (lit ".h", lit "c");
    (lit ".cuh", lit "cuda");
    (lit ".py", lit "python");
    (lit ".md", lit "markdown")
  ].

Definition get_language (filename : str) : str :=
  let ext := path_suffix filename in
  default (lit "clike") (ext_map !! ext).

(** ** The literal text of the templates *)

Module Html.

Definition day_html_title : str :=
  lit "<!DOCTYPE html>
<html lang=" ++ dq ++ lit "en" ++ dq ++ lit ">
<head>
    <meta charset=" ++ dq ++ lit "UTF-8" ++ dq ++ lit ">
    <meta name=" ++ dq ++ lit "viewport" ++ dq ++ lit " content=" ++ dq ++ lit "width=device-width, initial-scale=1.0" ++ dq ++ lit ">
    <title>Day ".

Definition day_html_style : str :=
  lit " - GPU Kernels Learning Journey</title>
    <link rel=" ++ dq ++ lit "stylesheet" ++ dq ++ lit " href=" ++ dq ++ lit "https://cdnjs.cloudflare.com/ajax/libs/prism/1.29.0/themes/prism-tomorrow.min.css" ++ dq ++ lit ">
    <style>
        * {
            margin: 0;
            padding: 0;
            box-sizing: border-box;
        }
        
        body {
            font-family: -apple-system, BlinkMacSystemFont, 'Segoe UI', Roboto, Oxygen, Ubuntu, Cantarell, sans-serif;
            line-height: 1.6;
            color: #333;
            background: #f5f5f5;
        }
        
        .header {
            background: linear-gradient(135deg, #667eea 0%, #764ba2 100%);
            color: white;
            padding: 2rem 1rem;
            text-align: center;
            box-shadow: 0 2px 10px rgba(0,0,0,0.1);
        }
        
        .header h1 {
            font-size: 2.5rem;
            margin-bottom: 0.5rem;
        }
        
        .header .subtitle {
            font-size: 1.1rem;
            opacity: 0.9;
        }
        
        .nav {
            background: white;
            padding: 1rem;
            box-shadow: 0 2px 5px rgba(0,0,0,0.05);
            position: sticky;
            top: 0;
            z-index: 100;
        }
        
        .nav-content {
            max-width: 1200px;
            margin: 0 auto;
            display: flex;
            justify-content: space-between;
            align-items: center;
            flex-wrap: wrap;
            gap: 1rem;
        }
        
        .nav a {
            color: #667eea;
            text-decoration: none;
            padding: 0.5rem 1rem;
            border-radius: 5px;
            transition: all 0.3s;
        }
        
        .nav a:hover {
            background: #667eea;
            color: white;
        }
        
        .container {
            max-width: 1200px;
            margin: 2rem auto;
            padding: 0 1rem;
        }
        
        .description {
            background: white;
            padding: 2rem;
            border-radius: 10px;
            box-shadow: 0 2px 10px rgba(0,0,0,0.05);
            margin-bottom: 2rem;
        }
        
        .description h2 {
            color: #667eea;
            margin-bottom: 1rem;
            border-bottom: 2px solid #667eea;
            padding-bottom: 0.5rem;
        }
        
        .description pre {
            background: #f5f5f5;
            padding: 1rem;
            border-radius: 5px;
            overflow-x: auto;
        }
        
        .file-section {
            background: white;
            margin-bottom: 2rem;
            border-radius: 10px;
            overflow: hidden;
            box-shadow: 0 2px 10px rgba(0,0,0,0.05);
        }
        
        .file-section h3 {
            background: #667eea;
            color: white;
            padding: 1rem;
            margin: 0;
        }
        
        .file-section pre {
            margin: 0;
            border-radius: 0;
        }
        
        .file-section code {
            display: block;
            padding: 1.5rem;
            max-height: 600px;
            overflow: auto;
        }
        
        .no-files {
            text-align: center;
            padding: 3rem;
            color: #999;
            font-style: italic;
        }
        
        @media (max-width: 768px) {
            .header h1 {
                font-size: 1.8rem;
            }
            
            .nav-content {
                flex-direction: column;
                text-align: center;
            }
        }
    </style>
</head>
<body>
    <div class=" ++ dq ++ lit "header" ++ dq ++ lit ">
        <h1>Day ".

Definition day_html_nav : str :=
  lit "</h1>
        <div class=" ++ dq ++ lit "subtitle" ++ dq ++ lit ">GPU Kernels Learning Journey</div>
    </div>
    
    <nav class=" ++ dq ++ lit "nav" ++ dq ++ lit ">
        <div class=" ++ dq ++ lit "nav-content" ++ dq ++ lit ">
            <a href=" ++ dq ++ lit "index.html" ++ dq ++ lit ">" ++ [8592] ++ lit " Back to Index</a>
            <div>
                ".

Definition day_html_nav_sep : str :=
  lit "
                ".

Definition day_html_desc : str :=
  lit "
            </div>
        </div>
    </nav>
    
    <div class=" ++ dq ++ lit "container" ++ dq ++ lit ">
        <div class=" ++ dq ++ lit "description" ++ dq ++ lit ">
            <h2>Description</h2>
            <div class=" ++ dq ++ lit "desc-content" ++ dq ++ lit ">
".

Definition day_html_files : str :=
  lit "
            </div>
        </div>
        
        <h2 style=" ++ dq ++ lit "margin-bottom: 1rem; color: #667eea;" ++ dq ++ lit ">Code Files</h2>
".

Definition day_html_end : str :=
  lit "
    </div>
    
    <script src=" ++ dq ++ lit "https://cdnjs.cloudflare.com/ajax/libs/prism/1.29.0/prism.min.js" ++ dq ++ lit "></script>
    <script src=" ++ dq ++ lit "https://cdnjs.cloudflare.com/ajax/libs/prism/1.29.0/components/prism-c.min.js" ++ dq ++ lit "></script>
    <script src=" ++ dq ++ lit "https://cdnjs.cloudflare.com/ajax/libs/prism/1.29.0/components/prism-cpp.min.js" ++ dq ++ lit "></script>
    <script src=" ++ dq ++ lit "https://cdnjs.cloudflare.com/ajax/libs/prism/1.29.0/components/prism-python.min.js" ++ dq ++ lit "></script>
    <script src=" ++ dq ++ lit "https://cdnjs.cloudflare.com/ajax/libs/prism/1.29.0/components/prism-markdown.min.js" ++ dq ++ lit "></script>
</body>
</html>".

Definition index_html_head : str :=
  lit "<!DOCTYPE html>
<html lang=" ++ dq ++ lit "en" ++ dq ++ lit ">
<head>
    <meta charset=" ++ dq ++ lit "UTF-8" ++ dq ++ lit ">
    <meta name=" ++ dq ++ lit "viewport" ++ dq ++ lit " content=" ++ dq ++ lit "width=device-width, initial-scale=1.0" ++ dq ++ lit ">
    <title>GPU Kernels - 100 Days Learning Journey</title>
    <style>
        * {
            margin: 0;
            padding: 0;
            box-sizing: border-box;
        }
        
        body {
            font-family: -apple-system, BlinkMacSystemFont, 'Segoe UI', Roboto, Oxygen, Ubuntu, Cantarell, sans-serif;
            line-height: 1.6;
            color: #333;
            background: #f5f5f5;
        }
        
        .hero {
            background: linear-gradient(135deg, #667eea 0%, #764ba2 100%);
            color: white;
            padding: 4rem 1rem;
            text-align: center;
        }
        
        .hero h1 {
            font-size: 3rem;
            margin-bottom: 1rem;
            font-weight: 700;
        }
        
        .hero p {
            font-size: 1.3rem;
            opacity: 0.95;
            max-width: 800px;
            margin: 0 auto 2rem;
        }
        
        .hero .links {
            display: flex;
            gap: 1rem;
            justify-content: center;
            flex-wrap: wrap;
        }
        
        .hero .links a {
            color: white;
            text-decoration: none;
            padding: 0.8rem 1.5rem;
            border: 2px solid white;
            border-radius: 5px;
            transition: all 0.3s;
            font-weight: 500;
        }
        
        .hero .links a:hover {
            background: white;
            color: #667eea;
        }
        
        .container {
            max-width: 1400px;
            margin: 0 auto;
            padding: 3rem 1rem;
        }
        
        .section-title {
            text-align: center;
            font-size: 2.5rem;
            color: #333;
            margin-bottom: 3rem;
            font-weight: 700;
        }
        
        .day-grid {
            display: grid;
            grid-template-columns: repeat(auto-fill, minmax(300px, 1fr));
            gap: 2rem;
        }
        
        .day-card {
            background: white;
            border-radius: 10px;
            padding: 1.5rem;
            box-shadow: 0 2px 10px rgba(0,0,0,0.05);
            transition: all 0.3s;
            display: flex;
            flex-direction: column;
        }
        
        .day-card:hover {
            transform: translateY(-5px);
            box-shadow: 0 5px 20px rgba(102, 126, 234, 0.2);
        }
        
        .day-number {
            font-size: 1.8rem;
            font-weight: 700;
            color: #667eea;
            margin-bottom: 0.5rem;
        }
        
        .day-preview {
            color: #666;
            flex-grow: 1;
            margin-bottom: 1rem;
            font-size: 0.95rem;
            line-height: 1.5;
        }
        
        .day-link {
            color: #667eea;
            text-decoration: none;
            font-weight: 600;
            transition: all 0.3s;
            display: inline-block;
        }
        
        .day-link:hover {
            color: #764ba2;
            transform: translateX(5px);
        }
        
        .footer {
            background: #333;
            color: white;
            text-align: center;
            padding: 2rem 1rem;
            margin-top: 4rem;
        }
        
        .footer a {
            color: #667eea;
            text-decoration: none;
        }
        
        .footer a:hover {
            text-decoration: underline;
        }
        
        @media (max-width: 768px) {
            .hero h1 {
                font-size: 2rem;
            }
            
            .hero p {
                font-size: 1.1rem;
            }
            
            .section-title {
                font-size: 2rem;
            }
            
            .day-grid {
                grid-template-columns: 1fr;
            }
        }
    </style>
</head>
<body>
    <div class=" ++ dq ++ lit "hero" ++ dq ++ lit ">
        <h1>" ++ [128640] ++ lit " GPU Kernels Learning Journey</h1>
        <p>A 100-day journey of learning GPU programming and parallel computing with CUDA, HIP, and more</p>
        <div class=" ++ dq ++ lit "links" ++ dq ++ lit ">
            <a href=" ++ dq ++ lit "https://github.com/douyixuan/gpu-kernels" ++ dq ++ lit " target=" ++ dq ++ lit "_blank" ++ dq ++ lit ">GitHub Repository</a>
            <a href=" ++ dq ++ lit "https://hamdi.bearblog.dev/" ++ dq ++ lit " target=" ++ dq ++ lit "_blank" ++ dq ++ lit ">Blog</a>
        </div>
    </div>
    
    <div class=" ++ dq ++ lit "container" ++ dq ++ lit ">
        <h2 class=" ++ dq ++ lit "section-title" ++ dq ++ lit ">100 Days of GPU Programming</h2>
        <div class=" ++ dq ++ lit "day-grid" ++ dq ++ lit ">
".

Definition index_html_end : str :=
  lit "
        </div>
    </div>
    
    <div class=" ++ dq ++ lit "footer" ++ dq ++ lit ">
        <p>Created as part of the 100 Days GPU Programming Challenge</p>
        <p>Mentor: <a href=" ++ dq ++ lit "https://github.com/hkproj/" ++ dq ++ lit " target=" ++ dq ++ lit "_blank" ++ dq ++ lit ">hkproj</a> | 
           Challenge Partner: <a href=" ++ dq ++ lit "https://github.com/1y33/100Days" ++ dq ++ lit " target=" ++ dq ++ lit "_blank" ++ dq ++ lit ">1y33</a></p>
    </div>
</body>
</html>".

Definition file_html_open : str :=
  lit "
    <div class=" ++ dq ++ lit "file-section" ++ dq ++ lit ">
        <h3>".

Definition file_html_code : str :=
  lit "</h3>
        <pre><code class=" ++ dq ++ lit "language-".

Definition file_html_content : str :=
  dq ++ lit ">".

Definition file_html_close : str :=
  lit "</code></pre>
    </div>
".

Definition card_html_open : str :=
  lit "
        <div class=" ++ dq ++ lit "day-card" ++ dq ++ lit ">
            <div class=" ++ dq ++ lit "day-number" ++ dq ++ lit ">Day ".

Definition card_html_preview : str :=
  lit "</div>
            <div class=" ++ dq ++ lit "day-preview" ++ dq ++ lit ">".

Definition card_html_link : str :=
  lit "</div>
            <a href=" ++ dq ++ lit "day-".

Definition card_html_close : str :=
  lit ".html" ++ dq ++ lit " class=" ++ dq ++ lit "day-link" ++ dq ++ lit ">View Details " ++ [8594] ++ lit "</a>
        </div>".

Definition prev_a : str :=
  lit "<a href=" ++ dq ++ lit "day-".

Definition prev_b : str :=
  lit ".html" ++ dq ++ lit ">" ++ [8592] ++ lit " Day ".

Definition prev_c : str :=
  lit "</a>".

Definition next_a : str :=
  lit "<a href=" ++ dq ++ lit "day-".

Definition next_b : str :=
  lit ".html" ++ dq ++ lit ">Day ".

Definition next_c : str :=
  lit " " ++ [8594] ++ lit "</a>".

Definition no_files : str :=
  lit "<p class=" ++ dq ++ lit "no-files" ++ dq ++ lit ">No code files found for this day.</p>".

Definition no_desc : str :=
  lit "<p>No description available for this day.</p>".

End Html.

Import Html.

(** ** generate_day_page *)

(** [content.replace('&', '&amp;').replace('<', '&lt;').replace('>', '&gt;')] *)
Definition escape (content : str) : str :=
  replace (lit ">") (lit "&gt;")
    (replace (lit "<") (lit "&lt;")
      (replace (lit "&") (lit "&amp;") content)).

(** One pass of the loop over [files]: the text appended to [files_html]. *)
Definition file_section (filename content : str) : str :=
  let lang := get_language filename in
  let escaped_content := escape content in
  file_html_open ++ filename ++ file_html_code ++ lang ++ file_html_content
    ++ escaped_content ++ file_html_close.

Definition files_html (files : list (list N * list N)) : str :=
  match files with
  | [] => no_files
  | _ :: _ =>
      fold_left (fun acc '(filename, content) => acc ++ file_section filename content)
        files []
  end.

(** The two conditional links of the navigation bar. *)
Definition prev_link (day_num : Z) : str :=
  if (1 <? day_num)%Z
  then prev_a ++ str_of_int (day_num - 1) ++ prev_b ++ str_of_int (day_num - 1) ++ prev_c
  else [].

Definition next_link (day_num : Z) : str :=
  if (day_num <? 100)%Z
  then next_a ++ str_of_int (day_num + 1) ++ next_b ++ str_of_int (day_num + 1) ++ next_c
  else [].

(** [description if description else '<p>No description ...</p>'] *)
Definition description_block (description : str) : str :=
  match description with
  | [] => no_desc
  | _ :: _ => description
  end.

Definition generate_day_page (day_num : Z) (description : str)
    (files : list (list N * list N)) : str :=
  day_html_title ++ str_of_int day_num
    ++ day_html_style ++ str_of_int day_num
    ++ day_html_nav ++ prev_link day_num
    ++ day_html_nav_sep ++ next_link day_num
    ++ day_html_desc ++ description_block description
    ++ day_html_files ++ files_html files
    ++ day_html_end.

(** ** generate_index_page *)

(** [range(a, b)] *)
Definition range (a b : Z) : list Z := seqZ a (b - a).

(** The loop over the lines of a description, left at the first line that
    is neither blank nor a header; [preview] is returned unchanged when the
    loop runs to its end. *)
Fixpoint preview_loop (lines : list (list N)) (preview : str) : str :=
  match lines with
  | [] => preview
  | line :: lines' =>
      let line := strip line in
      if bool_decide (line <> []) && negb (startswith (lit "#") line)
      then take 150 line ++ (if (150 <? length line)%nat then lit "..." else [])
      else preview_loop lines' preview
  end.

(** The preview text of one card. *)
Definition card_preview (desc : str) : str :=
  let preview :=
    match desc with
    | [] => []
    | _ :: _ => preview_loop (split_on nl desc) []
    end in
  match preview with
  | [] => lit "Click to view details"
  | _ :: _ => preview
  end.

(** The text appended to [day_cards] for one day. *)
Definition day_card (day_num : Z) (preview : str) : str :=
  card_html_open ++ str_of_int day_num ++ card_html_preview ++ preview
    ++ card_html_link ++ str_of_int day_num ++ card_html_close.

(** [day_descriptions.get(day_num, "")] *)
Definition get_description (day_descriptions : gmap Z (list N)) (day_num : Z) : str :=
  default [] (day_descriptions !! day_num).

Definition day_cards (day_descriptions : gmap Z (list N)) : str :=
  fold_left
    (fun acc day_num =>
       acc ++ day_card day_num (card_preview (get_description day_descriptions day_num)))
    (range 1 101) [].

Definition generate_index_page (day_descriptions : gmap Z (list N)) : str :=
  index_html_head ++ day_cards day_descriptions ++ index_html_end.

(** ** main

    The pages written by [main]: [day_files] stands for [get_day_files],
    which reads the day directories. *)
Definition day_page_of (day_descriptions : gmap Z (list N))
    (day_files : Z -> list (list N * list N)) (day_num : Z) : str :=
  generate_day_page day_num (get_description day_descriptions day_num) (day_files day_num).

Definition main_pages `{U : UnicodeDecimal} (readme : option (list N))
    (day_files : Z -> list (list N * list N)) : str * list (Z * list N) :=
  let day_descriptions := parse_readme readme in
  (generate_index_page day_descriptions,
   (fun day_num => (day_num, day_page_of day_descriptions day_files day_num))
     <$> range 1 101).

(** ** Definitions used to state the properties *)

(** Decoding of the three entities in one pass from left to right: the
    inverse that the specification asks of [escape].  [skip] counts the
    characters of an entity that are still to be passed over; 38 is [&],
    60 is [<] and 62 is [>]. *)
Fixpoint unescape_from (skip : nat) (s : str) : str :=
  match s with
  | [] => []
  | c :: s' =>
      match skip with
      | S k => unescape_from k s'
      | O =>
          if startswith (lit "&amp;") s then 38 :: unescape_from 4 s'
          else if startswith (lit "&lt;") s then 60 :: unescape_from 3 s'
          else if startswith (lit "&gt;") s then 62 :: unescape_from 3 s'
          else c :: unescape_from 0 s'
      end
  end.

Definition unescape (s : str) : str := unescape_from 0 s.

(** No [<], no [>], and every [&] starts one of the three entities. *)
Fixpoint only_entities (s : str) : bool :=
  match s with
  | [] => true
  | c :: s' =>
      (if c =? 38
       then startswith (lit "amp;") s' || startswith (lit "lt;") s'
            || startswith (lit "gt;") s'
       else negb (c =? 60) && negb (c =? 62))
      && only_entities s'
  end.

(** What [escape] does to one character. *)
Definition escape_char (c : char) : str :=
  if c =? 38 then lit "&amp;"
  else if c =? 60 then lit "&lt;"
  else if c =? 62 then lit "&gt;"
  else [c].

(** The three substitutions in another order: [<] and [>] before [&]. *)
Definition escape_amp_last (content : str) : str :=
  replace (lit "&") (lit "&amp;")
    (replace (lit ">") (lit "&gt;")
      (replace (lit "<") (lit "&lt;") content)).

(** The part of a day page before the description, and the part between
    the description and the code files. *)
Definition day_page_top (day_num : Z) : str :=
  day_html_title ++ str_of_int day_num
    ++ day_html_style ++ str_of_int day_num
    ++ day_html_nav ++ prev_link day_num
    ++ day_html_nav_sep ++ next_link day_num
    ++ day_html_desc.

(** The preview of a card as the specification words it: the first line,
    stripped, that is neither empty nor a header, cut to 150 characters. *)
Definition preview_line (line : str) : bool :=
  bool_decide (line <> []) && negb (startswith (lit "#") line).

Definition truncate150 (line : str) : str :=
  if (150 <? length line)%nat then take 150 line ++ lit "..." else line.

Definition spec_preview (desc : str) : str :=
  match List.find preview_line (strip <$> split_on nl desc) with
  | Some line => truncate150 line
  | None => lit "Click to view details"
  end.

(** The navigation bar of a day page, from its opening tag to its closing
    tag, and the parts of the page before and after it. *)
Definition nav_open : str :=
  lit "<nav class=" ++ dq ++ lit "nav" ++ dq ++ lit ">
        <div class=" ++ dq ++ lit "nav-content" ++ dq ++ lit ">
            <a href=" ++ dq ++ lit "index.html" ++ dq ++ lit ">" ++ [8592] ++ lit " Back to Index</a>
            <div>
                ".

Definition nav_close : str :=
  lit "
            </div>
        </div>
    </nav>".

Definition nav_bar (day_num : Z) : str :=
  nav_open ++ prev_link day_num ++ day_html_nav_sep ++ next_link day_num ++ nav_close.

Definition day_page_header (day_num : Z) : str :=
  day_html_title ++ str_of_int day_num ++ day_html_style ++ str_of_int day_num
    ++ take (length day_html_nav - length nav_open) day_html_nav.

Definition day_page_main (description : str) (files : list (list N * list N)) : str :=
  drop (length nav_close) day_html_desc ++ description_block description
    ++ day_html_files ++ files_html files ++ day_html_end.

(** The link to the day before [day_num] and the link to the day after it,
    as they are written in the navigation bar. *)
Definition prev_anchor (day_num : Z) : str :=
  lit "<a href=" ++ dq ++ lit "day-" ++ str_of_int (day_num - 1) ++ lit ".html" ++ dq
    ++ lit ">" ++ [8592] ++ lit " Day " ++ str_of_int (day_num - 1) ++ lit "</a>".

Definition next_anchor (day_num : Z) : str :=
  lit "<a href=" ++ dq ++ lit "day-" ++ str_of_int (day_num + 1) ++ lit ".html" ++ dq
    ++ lit ">Day " ++ str_of_int (day_num + 1) ++ lit " " ++ [8594] ++ lit "</a>".

(** The start of a link to a day page. *)
Definition day_link_open : str := lit "<a href=" ++ dq ++ lit "day".

(** The cards of the index page, one string per card. *)
Definition index_cards (day_descriptions : gmap Z (list N)) : list (list N) :=
  (fun day_num => day_card day_num (card_preview (get_description day_descriptions day_num)))
    <$> seqZ 1 100.

(** ** Definitions used to state the properties of [parse_readme] *)

Definition succeeds (o : option (cursor * gmap nat (list N))) : bool :=
  match o with
  | Some _ => true
  | None => false
  end.

(** The text [s] starts with the start of a day section, [\n#{1,2}\s+Day\s+\d+]:
    this is where the lookahead of the pattern ends a description. *)
Definition header_ahead `{U : UnicodeDecimal} (s : str) : bool :=
  succeeds (run next_header (fun c g => Some (c, g)) (start_of s) ∅).

(** No day section starts at an offset inside [text] when [rest] follows it. *)
Definition no_header_inside `{U : UnicodeDecimal} (text rest : str) : bool :=
  forallb (fun i => negb (header_ahead (drop i (text ++ rest)))) (seq 0 (length text)).

(** The day number and the description that the loop of [parse_readme]
    takes from a match. *)
Definition day_of `{U : UnicodeDecimal} (m : rmatch) : Z := int_of_digits (group m 2).
Definition description_of (m : rmatch) : str := strip (group m 3).

(** No match of the document that starts before the line at offset [p]
    reaches beyond that offset. *)
Definition line_reached `{U : UnicodeDecimal} (doc : str) (p : nat) : bool :=
  forallb (fun m => implb (S (m_start m) <? p)%nat (m_end m <=? p)%nat)
    (finditer pattern doc).

(** No match of the document that starts after offset [p] is for [day]. *)
Definition no_later_match `{U : UnicodeDecimal} (doc : str) (p : nat) (day : Z) : bool :=
  forallb (fun m => implb (p <? m_start m)%nat (negb (day_of m =? day)%Z))
    (finditer pattern doc).

(** The character before a cursor that has passed [run]. *)
Definition prev_after (prev : option N) (run : str) : option N :=
  match last run with
  | Some x => Some x
  | None => prev
  end.

(** A regular expression without [^]: whether it matches depends on the text
    ahead only. *)
Fixpoint no_bol (r : regex) : bool :=
  match r with
  | RBol => false
  | RSeq r1 r2 | RAlt r1 r2 => no_bol r1 && no_bol r2
  | RGroup _ r1 | RLook r1 => no_bol r1
  | _ => true
  end.

(** The pattern after its first item [(?:^|\n)]. *)
Definition pattern_after_start `{U : UnicodeDecimal} : regex :=
  match pattern with
  | RSeq _ r => r
  | _ => REps
  end.

(** The groups that take part in every match of a regular expression. *)
Fixpoint sure_groups (r : regex) : gset nat :=
  match r with
  | RSeq r1 r2 => sure_groups r1 ∪ sure_groups r2
  | RAlt r1 r2 => sure_groups r1 ∩ sure_groups r2
  | RGroup n r1 => {[n]} ∪ sure_groups r1
  | RLook r1 => sure_groups r1
  | _ => ∅
  end.

(** The characters of [str(n)]: the minus sign and the digits; and a text
    in which none of them occurs. *)
Definition int_char (c : N) : Prop := c = 45 \/ 48 <= c <= 57.
Definition no_int_char (p : list N) : Prop := forall c, int_char c -> c ∉ p.

(** ** get_day_files

    The directory of a day is read through the file system, which is given
    here by what the function sees of it: for a directory path, whether it
    exists and, in the order of [rglob('*')], its entries with the path
    relative to the directory, whether the entry is a regular file, and what
    reading it as text gives. *)

Inductive read_result : Type :=
  | ReadOk (content : list N)          (* [f.read()] *)
  | ReadError (message : list N).      (* an exception, with its [str] *)

Record dir_entry := DirEntry {
  e_rel : list N;                      (* [str(file_path.relative_to(day_dir))] *)
  e_is_file : bool;                    (* [file_path.is_file()] *)
  e_read : read_result
}.

(** [f'{day_num:02d}']: at least two characters, zeros filled in on the left. *)
Definition format_02d (day_num : Z) : str :=
  let s := str_of_int day_num in
  if (length s <? 2)%nat then 48 :: s else s.

(** [Path(f"day {day_num:02d}")] *)
Definition day_dir_name (day_num : Z) : str := lit "day " ++ format_02d day_num.

(** [str(day_dir / rel)] *)
Definition join_path (dir rel : str) : str := dir ++ 47 :: rel.

Definition code_extensions : gset (list N) :=
  {[ lit ".cu"; lit ".cpp"; lit ".c"; lit ".h"; lit ".cuh"; lit ".py"; lit ".md" ]}.

(** One pass of the loop over [day_dir.rglob('*')]: the state is what has
    been printed and [code_files]. *)
Definition collect_entry (day_dir : str)
    (st : list (list N) * list (list N * list N)) (e : dir_entry)
    : list (list N) * list (list N * list N) :=
  let file_path := join_path day_dir (e_rel e) in
  if e_is_file e && bool_decide (path_suffix file_path ∈ code_extensions) then
    match e_read e with
    | ReadOk content => (st.1, st.2 ++ [(e_rel e, content)])
    | ReadError message =>
        (st.1 ++ [lit "Error reading " ++ file_path ++ lit ": " ++ message], st.2)
    end
  else st.

(** [get_day_files]: what it prints and what it returns.  [dirs] gives the
    entries of a directory, [None] when the directory does not exist. *)
Definition get_day_files (dirs : list N -> option (list dir_entry)) (day_num : Z)
    : list (list N) * list (list N * list N) :=
  let day_dir := day_dir_name day_num in
  match dirs day_dir with
  | None => ([], [])
  | Some entries => fold_left (collect_entry day_dir) entries ([], [])
  end.

(** ** main, with what it prints and writes

    The state of a run is the lines printed so far and the files of the
    output directory, by path.  (That the creation of the directory or a
    write fails is not modelled: the run ends there with the exception.) *)

Record run_state := RunState {
  stdout : list (list N);
  docs : gmap (list N) (list N)
}.

Definition print (line : str) (st : run_state) : run_state :=
  RunState (stdout st ++ [line]) (docs st).

Definition print_all (lines : list (list N)) (st : run_state) : run_state :=
  RunState (stdout st ++ lines) (docs st).

(** [with open(path, 'w') as f: f.write(text)] *)
Definition write_file (path text : str) (st : run_state) : run_state :=
  RunState (stdout st) (<[path := text]> (docs st)).

(** [docs_dir / "index.html"] and [docs_dir / f"day-{day_num}.html"] *)
Definition index_path : str := lit "docs/index.html".
Definition day_path (day_num : Z) : str :=
  lit "docs/day-" ++ str_of_int day_num ++ lit ".html".

(** What [parse_readme] prints. *)
Definition parse_readme_output (readme : option (list N)) : list (list N) :=
  match readme with
  | None => [lit "README.md not found!"]
  | Some _ => []
  end.

(** One pass of the loop of [main] over the day numbers. *)
Definition main_day `{U : UnicodeDecimal} (day_descriptions : gmap Z (list N))
    (dirs : list N -> option (list dir_entry)) (st : run_state) (day_num : Z)
    : run_state :=
  let description := get_description day_descriptions day_num in
  let '(printed, files) := get_day_files dirs day_num in
  let day_html := generate_day_page day_num description files in
  print ([10003] ++ lit " Generated day-" ++ str_of_int day_num ++ lit ".html ("
           ++ str_of_int (Z.of_nat (length files)) ++ lit " files)")
    (write_file (day_path day_num) day_html (print_all printed st)).

(** [main]: [readme] is the text of README.md if the file exists, [dirs] the
    day directories, [st] the state before the run. *)
Definition main `{U : UnicodeDecimal} (readme : option (list N))
    (dirs : list N -> option (list dir_entry)) (st : run_state) : run_state :=
  let st := print (lit "Parsing README.md...") st in
  let day_descriptions := parse_readme readme in
  let st := print_all (parse_readme_output readme) st in
  let st := print (lit "Found descriptions for "
                     ++ str_of_int (Z.of_nat (size day_descriptions)) ++ lit " days") st in
  let st := print (lit "Generating index page...") st in
  let index_html := generate_index_page day_descriptions in
  let st := write_file index_path index_html st in
  let st := print ([10003] ++ lit " Generated index.html") st in
  let st := print (nl :: lit "Generating day pages...") st in
  let st := fold_left (main_day day_descriptions dirs) (range 1 101) st in
  print (nl :: [9989] ++ lit " Successfully generated all pages in docs/") st.

(** ** Definitions used to state further properties *)

(** The entry is kept by [get_day_files]: a regular file with one of the
    extensions that could be read; and the line printed for one that could
    not. *)
Definition kept_file (day_dir : str) (e : dir_entry) : option (list N * list N) :=
  if e_is_file e && bool_decide (path_suffix (join_path day_dir (e_rel e)) ∈ code_extensions)
  then match e_read e with
       | ReadOk content => Some (e_rel e, content)
       | ReadError _ => None
       end
  else None.

Definition read_failure (day_dir : str) (e : dir_entry) : option (list N) :=
  if e_is_file e && bool_decide (path_suffix (join_path day_dir (e_rel e)) ∈ code_extensions)
  then match e_read e with
       | ReadOk _ => None
       | ReadError message =>
           Some (lit "Error reading " ++ join_path day_dir (e_rel e) ++ lit ": " ++ message)
       end
  else None.

(** The address of a day page as the links of the pages write it, and the
    file that a relative address names for a page of the output directory. *)
Definition day_href (day_num : Z) : str :=
  lit "day-" ++ str_of_int day_num ++ lit ".html".

Definition linked_file (href : str) : str := lit "docs/" ++ href.

(** The number of occurrences of a character. *)
Definition count_char (c : N) (s : list N) : nat :=
  length (filter (fun x => x = c) s).

(** No match runs into the next one. *)
Fixpoint in_order (ms : list rmatch) : Prop :=
  match ms with
  | [] => True
  | m :: ms' => (forall m', m' ∈ ms' -> (m_end m <= m_start m')%nat) /\ in_order ms'
  end.

(** A regular expression without capturing group. *)
Fixpoint groupless (r : regex) : bool :=
  match r with
  | RGroup _ _ => false
  | RSeq r1 r2 | RAlt r1 r2 => groupless r1 && groupless r2
  | RLook r1 => groupless r1
  | _ => true
  end.

(** * Properties *)

(** Literals are replaced by their list of code points. *)
Ltac eval_lits :=
  repeat match goal with
  | |- context [lit ?s] =>
      let v := eval vm_compute in (lit s) in change (lit s) with v
  end.

(** ** Text *)

Section text_facts.

Implicit Types (s t old new : list N) (c : N).

Lemma startswith_app p s : startswith p (p ++ s) = true.
Proof.
  induction p as [|a p IH]; [done|].
  simpl. by rewrite N.eqb_refl.
Qed.

Lemma startswith_spec p s : startswith p s = true <-> exists t, s = p ++ t.
Proof.
  split.
  - revert s. induction p as [|a p IH]; intros s Hs; [by exists s|].
    destruct s as [|b s]; [done|]. simpl in Hs.
    apply andb_true_iff in Hs as [Hab Hp]. apply N.eqb_eq in Hab as ->.
    destruct (IH _ Hp) as [t ->]. by exists t.
  - intros [t ->]. apply startswith_app.
Qed.

(** Replacing a one-character [old] maps every character on its own. *)
Lemma replace_char c new s :
  replace [c] new s = s ≫= (fun x => if x =? c then new else [x]).
Proof.
  unfold replace. induction s as [|x s IH]; [done|].
  cbn [replace_from startswith length Nat.sub mbind list_bind].
  rewrite N.eqb_sym. destruct (x =? c); cbn [andb]; rewrite IH.
  - done.
  - done.
Qed.

End text_facts.

Lemma escape_bind content : escape content = content ≫= escape_char.
Proof.
  unfold escape. eval_lits. rewrite !replace_char.
  induction content as [|c s IH]; [done|].
  cbn [mbind list_bind]. rewrite !bind_app, IH. f_equal.
  unfold escape_char. eval_lits.
  destruct (c =? 38) eqn:E1; [apply N.eqb_eq in E1 as ->; done|].
  cbn [mbind list_bind].
  destruct (c =? 60) eqn:E2; [apply N.eqb_eq in E2 as ->; done|].
  cbn [mbind list_bind app].
  by destruct (c =? 62).
Qed.

Lemma escape_cons c content : escape (c :: content) = escape_char c ++ escape content.
Proof. by rewrite !escape_bind. Qed.

Lemma escape_char_cases c :
  (c = 38 /\ escape_char c = [38; 97; 109; 112; 59])
  \/ (c = 60 /\ escape_char c = [38; 108; 116; 59])
  \/ (c = 62 /\ escape_char c = [38; 103; 116; 59])
  \/ (c <> 38 /\ c <> 60 /\ c <> 62 /\ escape_char c = [c]).
Proof.
  unfold escape_char. eval_lits.
  destruct (N.eqb_spec c 38) as [->|?]; [by left|].
  destruct (N.eqb_spec c 60) as [->|?]; [by right; left|].
  destruct (N.eqb_spec c 62) as [->|?]; [by right; right; left|].
  by right; right; right.
Qed.

Lemma unescape_escape content : unescape (escape content) = content.
Proof.
  unfold unescape. induction content as [|c s IH]; [done|].
  rewrite escape_cons.
  destruct (escape_char_cases c) as [[-> ->]|[[-> ->]|[[-> ->]|(H1 & H2 & H3 & ->)]]];
    eval_lits.
  - cbn. by rewrite IH.
  - cbn. by rewrite IH.
  - cbn. by rewrite IH.
  - cbn [app unescape_from]. eval_lits. cbn [startswith].
    apply N.eqb_neq in H1, H2, H3.
    rewrite (N.eqb_sym 38 c), H1. cbn [andb].
    by rewrite IH.
Qed.

Lemma only_entities_escape content : only_entities (escape content) = true.
Proof.
  induction content as [|c s IH]; [done|].
  rewrite escape_cons.
  destruct (escape_char_cases c) as [[-> ->]|[[-> ->]|[[-> ->]|(H1 & H2 & H3 & ->)]]].
  - cbn. by rewrite IH.
  - cbn. by rewrite IH.
  - cbn. by rewrite IH.
  - cbn [app only_entities].
    apply N.eqb_neq in H1, H2, H3. by rewrite H1, H2, H3, IH.
Qed.

(** ** get_language *)

Lemma get_language_table filename :
  get_language filename =
    let ext := path_suffix filename in
    if decide (ext = lit ".cu") then lit "cuda"
    else if decide (ext = lit ".cuh") then lit "cuda"
    else if decide (ext = lit ".cpp") then lit "cpp"
    else if decide (ext = lit ".c") then lit "c"
    else if decide (ext = lit ".h") then lit "c"
    else if decide (ext = lit ".py") then lit "python"
    else if decide (ext = lit ".md") then lit "markdown"
    else lit "clike".
Proof.
  unfold get_language, ext_map. cbn [list_to_map foldr fst snd].
  cbv zeta. generalize (path_suffix filename) as ext. intros ext.
  rewrite !lookup_insert, lookup_empty.
  repeat case_decide; try done; subst; done.
Qed.

(** ** Day pages *)

Lemma fold_file_sections files acc :
  fold_left (fun acc '(filename, content) => acc ++ file_section filename content)
    files acc
  = acc ++ concat ((fun fc => file_section fc.1 fc.2) <$> files).
Proof.
  revert acc. induction files as [|[f c] files IH]; intros acc.
  - by rewrite app_nil_r.
  - cbn [fold_left fmap list_fmap concat fst snd]. by rewrite IH, app_assoc.
Qed.

Lemma files_html_sections files :
  files <> [] ->
  files_html files = concat ((fun fc => file_section fc.1 fc.2) <$> files).
Proof.
  destruct files as [|fc files]; [done|]. intros _.
  unfold files_html. by rewrite fold_file_sections.
Qed.

Lemma day_page_split day_num description files :
  generate_day_page day_num description files
  = day_page_top day_num ++ description_block description
      ++ day_html_files ++ files_html files ++ day_html_end.
Proof. unfold generate_day_page, day_page_top. by rewrite <- !app_assoc. Qed.

(** The suffix of a path whose last component is a stem, a dot and an
    extension without dot. *)
Lemma split_on_nonempty sep s : split_on sep s <> [].
Proof.
  induction s as [|c s IH]; [done|]. cbn [split_on].
  destruct (c =? sep); [done|]. by destruct (split_on sep s).
Qed.

Lemma split_on_no_sep sep s : sep ∉ s -> split_on sep s = [s].
Proof.
  induction s as [|c s IH]; [done|]. intros Hs.
  apply not_elem_of_cons in Hs as [Hc Hs]. cbn [split_on].
  destruct (N.eqb_spec c sep) as [->|_]; [done|]. by rewrite IH.
Qed.

Lemma split_on_app sep a b :
  split_on sep (a ++ sep :: b) = split_on sep a ++ split_on sep b.
Proof.
  induction a as [|c a IH]; cbn [app split_on].
  - by rewrite N.eqb_refl.
  - destruct (c =? sep); [by rewrite IH|].
    rewrite IH. pose proof (split_on_nonempty sep a).
    by destruct (split_on sep a).
Qed.

Lemma rfind_absent c s : c ∉ s -> rfind c s = (-1)%Z.
Proof.
  induction s as [|x s IH]; [done|]. intros Hs.
  apply not_elem_of_cons in Hs as [Hc Hs]. cbn [rfind]. rewrite IH by done.
  cbn. by destruct (N.eqb_spec x c).
Qed.

Lemma rfind_last c a b : c ∉ b -> rfind c (a ++ c :: b) = Z.of_nat (length a).
Proof.
  intros Hb. induction a as [|x a IH]; cbn [app rfind length].
  - rewrite rfind_absent by done. cbn. by rewrite N.eqb_refl.
  - rewrite IH. destruct (Z.leb_spec 0 (Z.of_nat (length a))); lia.
Qed.

Lemma path_name_last_component dir name :
  (dir = [] \/ last dir = Some 47) ->
  47 ∉ name -> name <> [] -> name <> lit "." ->
  path_name (dir ++ name) = name.
Proof.
  intros Hdir Hsep Hne Hdot. unfold path_name.
  assert (exists pieces, split_on 47 (dir ++ name) = pieces ++ [name]) as [pieces ->].
  { destruct Hdir as [->|Hdir].
    - exists []. by apply split_on_no_sep.
    - destruct dir as [|c dir _] using rev_ind; [done|].
      rewrite last_snoc in Hdir. injection Hdir as ->.
      exists (split_on 47 dir). rewrite <- app_assoc. cbn [app].
      by rewrite split_on_app, (split_on_no_sep _ name). }
  rewrite filter_app, filter_cons, decide_True by done.
  by rewrite filter_nil, last_snoc.
Qed.

Lemma path_suffix_extension dir stem e :
  (dir = [] \/ last dir = Some 47) ->
  stem <> [] -> 47 ∉ stem -> e <> [] -> 47 ∉ e -> 46 ∉ e ->
  path_suffix (dir ++ stem ++ 46 :: e) = 46 :: e.
Proof.
  intros Hdir Hstem Hs He Hse Hde. unfold path_suffix.
  rewrite path_name_last_component; [|done| |by destruct stem|].
  - rewrite rfind_last by done. rewrite length_app. cbn [length].
    destruct stem as [|c stem]; [done|]. destruct e as [|x e]; [done|].
    cbn [length].
    replace (0 <? Z.of_nat (S (length stem)))%Z with true by (symmetry; apply Z.ltb_lt; lia).
    replace (Z.of_nat (S (length stem)) <? Z.of_nat (S (length stem) + S (S (length e))) - 1)%Z
      with true by (symmetry; apply Z.ltb_lt; lia).
    cbn [andb]. rewrite Nat2Z.id.
    change (c :: stem) with ([c] ++ stem). rewrite <- app_assoc.
    replace (S (length stem)) with (length ([c] ++ stem)) by done.
    rewrite app_assoc. by rewrite drop_app_length.
  - intros Hin. apply elem_of_app in Hin as [?|Hin]; [done|].
    apply elem_of_cons in Hin as [?|?]; done.
  - destruct stem as [|c stem]; [done|]. destruct e as [|x e]; [done|].
    cbn. destruct stem; [|done]. cbn. intros [=].
Qed.

(** A file under any directory whose name is a stem, a dot and an extension
    has the tag of the extension in the table, or [clike]. *)
Lemma get_language_of_extension dir stem e :
  (dir = [] \/ last dir = Some 47) ->
  stem <> [] -> 47 ∉ stem -> e <> [] -> 47 ∉ e -> 46 ∉ e ->
  get_language (dir ++ stem ++ 46 :: e) = default (lit "clike") (ext_map !! (46 :: e)).
Proof. intros. unfold get_language. by rewrite path_suffix_extension. Qed.

(** C2.  The escaped content of a code file has no literal [<] or [>], every
    [&] in it starts one of the entities [&amp;], [&lt;], [&gt;], decoding
    the three entities gives the content back, and it is this escaped text
    that the code block of the file's section holds. *)
Theorem escape_roundtrip (filename content : list N) :
  only_entities (escape content) = true
  /\ unescape (escape content) = content
  /\ file_section filename content
     = file_html_open ++ filename ++ file_html_code ++ get_language filename
         ++ file_html_content ++ escape content ++ file_html_close.
Proof.
  split; [apply only_entities_escape|].
  split; [apply unescape_escape|done].
Qed.

(** What [only_entities] says position by position. *)
Lemma only_entities_lookup s i c :
  only_entities s = true -> s !! i = Some c ->
  c <> 60 /\ c <> 62 /\
  (c = 38 -> startswith (lit "&amp;") (drop i s) = true
             \/ startswith (lit "&lt;") (drop i s) = true
             \/ startswith (lit "&gt;") (drop i s) = true).
Proof.
  revert i. induction s as [|x s IH]; intros i Hs Hi; [done|].
  cbn [only_entities] in Hs. apply andb_true_iff in Hs as [Hx Hs].
  destruct i as [|i]; [|by apply IH].
  injection Hi as ->. cbn [drop].
  destruct (N.eqb_spec c 38) as [->|Hc].
  - repeat split; [done..|]. intros _. eval_lits.
    apply orb_true_iff in Hx as [Hx|Hx];
      [apply orb_true_iff in Hx as [Hx|Hx]|]; revert Hx; eval_lits; intros Hx.
    + left. cbn [startswith]. by rewrite N.eqb_refl.
    + right; left. cbn [startswith]. by rewrite N.eqb_refl.
    + right; right. cbn [startswith]. by rewrite N.eqb_refl.
  - apply andb_true_iff in Hx as [H1 H2].
    apply negb_true_iff, N.eqb_neq in H1, H2. done.
Qed.

(** C3.  [escape] substitutes [&] first, then [<], then [>], so that every
    character is escaped once; with [&] last the entities of [<] and [>]
    would be escaped again.  A section of the day page holds the escaped
    content of its file, and a description that is not empty stands in the
    page as it is. *)
Theorem escaping_file_content_only :
  (forall content : list N,
     escape content
     = replace (lit ">") (lit "&gt;")
         (replace (lit "<") (lit "&lt;") (replace (lit "&") (lit "&amp;") content)))
  /\ (forall content : list N, escape content = content ≫= escape_char)
  /\ escape (lit "<&>") = lit "&lt;&amp;&gt;"
  /\ escape_amp_last (lit "<&>") = lit "&amp;lt;&amp;&amp;gt;"
  /\ (forall filename content : list N,
        file_section filename content
        = file_html_open ++ filename ++ file_html_code ++ get_language filename
            ++ file_html_content ++ escape content ++ file_html_close)
  /\ (forall (day_num : Z) (c : N) (description : list N) files,
        generate_day_page day_num (c :: description) files
        = day_page_top day_num ++ (c :: description)
            ++ day_html_files ++ files_html files ++ day_html_end).
Proof.
  split; [done|]. split; [apply escape_bind|].
  split; [by vm_compute|]. split; [by vm_compute|].
  split; [done|]. intros. apply day_page_split.
Qed.

(** C7.  With an empty description the description block of the day page is
    the sentence that no description is available, with an empty list of
    files the code-files section is the sentence that no code files were
    found, and a day that has no entry in the mapping is rendered with the
    empty description. *)
Theorem empty_inputs_render_placeholders :
  (forall (day_num : Z) files,
     generate_day_page day_num [] files
     = day_page_top day_num
         ++ lit "<p>No description available for this day.</p>"
         ++ day_html_files ++ files_html files ++ day_html_end)
  /\ (forall (day_num : Z) (description : list N),
        generate_day_page day_num description []
        = day_page_top day_num ++ description_block description ++ day_html_files
            ++ (lit "<p class=" ++ dq ++ lit "no-files" ++ dq
                  ++ lit ">No code files found for this day.</p>")
            ++ day_html_end)
  /\ (forall (day_descriptions : gmap Z (list N)) day_files (day_num : Z),
        day_page_of (delete day_num day_descriptions) day_files day_num
        = generate_day_page day_num [] (day_files day_num)).
Proof.
  split; [intros; apply day_page_split|].
  split; [intros; apply day_page_split|].
  intros m fs n. unfold day_page_of, get_description.
  by rewrite lookup_delete_eq.
Qed.

(** The description slot is the content of the [desc-content] block. *)
Lemma description_slot :
  endswith (lit "<div class=" ++ dq ++ lit "desc-content" ++ dq ++ lit ">" ++ [nl])
    day_html_desc = true
  /\ startswith (nl :: lit "            </div>") day_html_files = true.
Proof. by vm_compute. Qed.

Lemma path_suffix_trailing_dot dir stem :
  (dir = [] \/ last dir = Some 47) -> stem <> [] -> 47 ∉ stem ->
  path_suffix (dir ++ stem ++ [46]) = [].
Proof.
  intros Hdir Hstem Hs. unfold path_suffix.
  rewrite path_name_last_component; [|done| |by destruct stem|].
  - rewrite (rfind_last 46 stem []) by (intros H; by apply elem_of_nil in H).
    rewrite length_app. cbn [length].
    replace (Z.of_nat (length stem) <? Z.of_nat (length stem + 1) - 1)%Z
      with false by (symmetry; apply Z.ltb_ge; lia).
    by rewrite andb_false_r.
  - intros Hin. apply elem_of_app in Hin as [?|Hin]; [done|].
    apply list_elem_of_singleton in Hin. done.
  - destruct stem as [|c stem]; [done|]. cbn. destruct stem; [|done]. cbn. intros [=].
Qed.

Lemma path_suffix_hidden dir e :
  (dir = [] \/ last dir = Some 47) -> e <> [] -> 47 ∉ e -> 46 ∉ e ->
  path_suffix (dir ++ 46 :: e) = [].
Proof.
  intros Hdir He Hs Hd. unfold path_suffix.
  rewrite path_name_last_component; [|done| |done|].
  - cbn [rfind]. rewrite rfind_absent by done. done.
  - intros Hin. apply elem_of_cons in Hin as [?|?]; done.
  - destruct e; [done|]. cbn. intros [=].
Qed.

Lemma path_suffix_plain dir name :
  (dir = [] \/ last dir = Some 47) -> name <> [] -> 47 ∉ name -> 46 ∉ name ->
  path_suffix (dir ++ name) = [].
Proof.
  intros Hdir Hne Hs Hd. unfold path_suffix.
  rewrite path_name_last_component; [|done|done|done|].
  - by rewrite rfind_absent.
  - intros ->. apply Hd. by left.
Qed.

Lemma get_language_no_suffix filename :
  path_suffix filename = [] -> get_language filename = lit "clike".
Proof. intros H. unfold get_language. by rewrite H. Qed.

(** The tag of a suffix that is a dot and [e]. *)
Lemma suffix_tag e :
  default (lit "clike") (ext_map !! (46 :: e))
  = if decide (e = lit "cu") then lit "cuda"
    else if decide (e = lit "cuh") then lit "cuda"
    else if decide (e = lit "cpp") then lit "cpp"
    else if decide (e = lit "c") then lit "c"
    else if decide (e = lit "h") then lit "c"
    else if decide (e = lit "py") then lit "python"
    else if decide (e = lit "md") then lit "markdown"
    else lit "clike".
Proof.
  unfold ext_map. cbn [list_to_map foldr fst snd].
  rewrite !lookup_insert, lookup_empty. eval_lits.
  repeat (case_decide; simplify_eq; try done).
Qed.

(** C9.  [get_language] gives one of six tags for every filename.  For a
    file, in any directory, whose name is a stem, a dot and an extension,
    the extensions [cu] and [cuh] give [cuda], [cpp] gives [cpp], [c] and
    [h] give [c], [py] gives [python], [md] gives [markdown], in these
    letters only, and every other extension, the empty one included, gives
    [clike]; so does a name without a dot and a name that starts with its
    only dot. *)
Theorem get_language_total :
  (forall filename : list N,
     get_language filename
       ∈ [lit "cuda"; lit "cpp"; lit "c"; lit "python"; lit "markdown"; lit "clike"])
  /\ (forall dir stem e : list N,
        (dir = [] \/ last dir = Some 47) -> stem <> [] -> 47 ∉ stem ->
        47 ∉ e -> 46 ∉ e ->
        get_language (dir ++ stem ++ lit "." ++ e)
        = if decide (e = lit "cu") then lit "cuda"
          else if decide (e = lit "cuh") then lit "cuda"
          else if decide (e = lit "cpp") then lit "cpp"
          else if decide (e = lit "c") then lit "c"
          else if decide (e = lit "h") then lit "c"
          else if decide (e = lit "py") then lit "python"
          else if decide (e = lit "md") then lit "markdown"
          else lit "clike")
  /\ (forall dir name : list N,
        (dir = [] \/ last dir = Some 47) -> name <> [] -> 47 ∉ name -> 46 ∉ name ->
        get_language (dir ++ name) = lit "clike")
  /\ (forall dir e : list N,
        (dir = [] \/ last dir = Some 47) -> e <> [] -> 47 ∉ e -> 46 ∉ e ->
        get_language (dir ++ lit "." ++ e) = lit "clike")
  /\ get_language (lit "kernel.cu") = lit "cuda"
  /\ get_language (lit "kernel.CU") = lit "clike"
  /\ get_language (lit "kernel.Cu") = lit "clike"
  /\ get_language (lit "README.MD") = lit "clike".
Proof.
  split; [|split; [|split; [|split]]].
  - intros filename. rewrite get_language_table. cbv zeta.
    repeat case_decide; eval_lits; set_unfold; tauto.
  - intros dir stem e Hdir Hstem Hs Hse Hde.
    change (lit "." ++ e) with (46 :: e).
    destruct e as [|x e].
    + rewrite get_language_no_suffix by by apply path_suffix_trailing_dot. done.
    + rewrite get_language_of_extension by done. apply suffix_tag.
  - intros dir name Hdir Hne Hs Hd.
    by apply get_language_no_suffix, path_suffix_plain.
  - intros dir e Hdir He Hs Hd. change (lit "." ++ e) with (46 :: e).
    by apply get_language_no_suffix, path_suffix_hidden.
  - by vm_compute.
Qed.

(** C10.  The relative path of every file of a day stands unescaped in the
    heading of its section of the day page: the section is the opening text
    that ends in the heading tag, the path as it is, and the code block with
    the language tag and the escaped content. *)
Theorem file_path_verbatim (day_num : Z) (description : list N)
    (files : list (list N * list N)) (i : nat) (filename content : list N) :
  files !! i = Some (filename, content) ->
  (exists before after,
     generate_day_page day_num description files
     = before
         ++ (file_html_open ++ filename ++ file_html_code ++ get_language filename
               ++ file_html_content ++ escape content ++ file_html_close)
         ++ after)
  /\ endswith (lit "<h3>") file_html_open = true
  /\ startswith (lit "</h3>") file_html_code = true.
Proof.
  intros Hi. split; [|by vm_compute].
  assert (files <> []) as Hne by (intros ->; done).
  rewrite day_page_split, (files_html_sections _ Hne).
  rewrite <- (take_drop_middle _ _ _ Hi), fmap_app, fmap_cons, concat_app, concat_cons.
  cbn [fst snd]. unfold file_section at 2.
  set (secs1 := concat (_ <$> take i files)).
  set (secs2 := concat (_ <$> drop (S i) files)).
  exists (day_page_top day_num ++ description_block description ++ day_html_files ++ secs1),
         (secs2 ++ day_html_end).
  by rewrite <- !app_assoc.
Qed.

(** ** Occurrences of a text in a text *)

Section occurrences_facts.

Implicit Types (p s x y : list N).

Lemma contains_infix p s : contains p s = true <-> exists x y, s = x ++ p ++ y.
Proof.
  split.
  - induction s as [|c s IH]; cbn [contains]; intros H.
    + rewrite orb_false_r in H. apply startswith_spec in H as [t ->]. by exists [], t.
    + apply orb_true_iff in H as [H|H].
      * apply startswith_spec in H as [t ->]. by exists [], t.
      * destruct (IH H) as (x & y & ->). by exists (c :: x), y.
  - intros (x & y & ->). induction x as [|c x IH].
    + cbn [app]. pose proof (startswith_app p y) as H.
      destruct (p ++ y); cbn [contains]; by rewrite H.
    + cbn [app contains]. rewrite IH. apply orb_true_r.
Qed.

Lemma occurrences_contains p s : occurrences p s <> 0%nat <-> contains p s = true.
Proof.
  induction s as [|c s IH]; cbn [occurrences contains].
  - rewrite orb_false_r. destruct (startswith p []); simpl; split; (done || lia).
  - destruct (startswith p (c :: s)); cbn [orb].
    + split; [done|lia].
    + by rewrite <- IH.
Qed.

(** A run [d] of characters that do not occur in [p] splits the count. *)
Lemma startswith_gap p a d b :
  d <> [] -> (forall c, c ∈ d -> c ∉ p) ->
  startswith p (a ++ d ++ b) = startswith p a.
Proof.
  intros Hd Hp. revert a. induction p as [|q p IH]; intros a; [done|].
  destruct a as [|c a].
  - destruct d as [|c d]; [done|]. cbn [app startswith].
    destruct (N.eqb_spec q c) as [->|?]; [|done].
    exfalso. apply (Hp c); constructor.
  - cbn [app startswith]. rewrite IH; [done|].
    intros c' Hc' Hin. apply (Hp c' Hc'). by constructor.
Qed.

Lemma occurrences_gap p a d b :
  p <> [] -> d <> [] -> (forall c, c ∈ d -> c ∉ p) ->
  occurrences p (a ++ d ++ b) = (occurrences p a + occurrences p b)%nat.
Proof.
  intros Hp Hd Hdp.
  assert (forall d', (forall c, c ∈ d' -> c ∉ p) ->
            occurrences p (d' ++ b) = occurrences p b) as Hskip.
  { induction d' as [|c d' IH]; intros Hd'; [done|].
    cbn [app occurrences]. rewrite IH by (intros c' ?; apply Hd'; by constructor).
    destruct p as [|q p]; [done|]. cbn [startswith].
    destruct (N.eqb_spec q c) as [->|?]; [|done].
    exfalso. apply (Hd' c); constructor. }
  induction a as [|c a IH].
  - cbn [app]. rewrite Hskip by done.
    destruct p; [done|]. done.
  - cbn [app occurrences].
    change (c :: a ++ d ++ b) with ((c :: a) ++ d ++ b).
    rewrite startswith_gap by done. rewrite IH. lia.
Qed.

End occurrences_facts.

Lemma uint_digits_chars u c : c ∈ uint_digits u -> 48 <= c <= 57.
Proof.
  induction u; cbn [uint_digits]; intros Hc;
    try (by apply elem_of_nil in Hc);
    apply elem_of_cons in Hc as [->|Hc]; (lia || auto).
Qed.

Lemma uint_digits_nonnil u : u <> Nil -> uint_digits u <> [].
Proof. by destruct u. Qed.

Lemma str_of_int_chars n c : c ∈ str_of_int n -> int_char c.
Proof.
  unfold int_char. destruct n as [|p|p]; cbn [str_of_int]; intros Hc.
  - apply list_elem_of_singleton in Hc as ->. lia.
  - right. by apply uint_digits_chars in Hc.
  - apply elem_of_cons in Hc as [->|Hc]; [by left|right].
    by apply uint_digits_chars in Hc.
Qed.

Lemma str_of_int_nonnil n : str_of_int n <> [].
Proof.
  destruct n as [|p|p]; cbn [str_of_int]; [done| |done].
  apply uint_digits_nonnil, DecimalPos.Unsigned.to_uint_nonnil.
Qed.

(** ** The navigation bar *)

Lemma occurrences_gaps2 p x1 d1 x2 d2 x3 :
  p <> [] -> d1 <> [] -> d2 <> [] ->
  (forall c, c ∈ d1 -> c ∉ p) -> (forall c, c ∈ d2 -> c ∉ p) ->
  occurrences p (x1 ++ d1 ++ x2 ++ d2 ++ x3)
  = (occurrences p x1 + occurrences p x2 + occurrences p x3)%nat.
Proof.
  intros. rewrite occurrences_gap by done.
  rewrite occurrences_gap by done. lia.
Qed.

Lemma occurrences_gaps4 p x1 d1 x2 d2 x3 d3 x4 d4 x5 :
  p <> [] -> d1 <> [] -> d2 <> [] -> d3 <> [] -> d4 <> [] ->
  (forall c, c ∈ d1 -> c ∉ p) -> (forall c, c ∈ d2 -> c ∉ p) ->
  (forall c, c ∈ d3 -> c ∉ p) -> (forall c, c ∈ d4 -> c ∉ p) ->
  occurrences p (x1 ++ d1 ++ x2 ++ d2 ++ x3 ++ d3 ++ x4 ++ d4 ++ x5)
  = (occurrences p x1 + occurrences p x2 + occurrences p x3
     + occurrences p x4 + occurrences p x5)%nat.
Proof.
  intros. rewrite occurrences_gap by done.
  rewrite occurrences_gaps2 by done.
  rewrite occurrences_gap by done. lia.
Qed.

Lemma str_of_int_gap p n c : no_int_char p -> c ∈ str_of_int n -> c ∉ p.
Proof. intros Hp Hc. apply Hp. by eapply str_of_int_chars. Qed.

Lemma no_int_char_check p :
  forallb (fun c => negb ((c =? 45) || ((48 <=? c) && (c <=? 57)))) p = true ->
  no_int_char p.
Proof.
  intros H c Hc Hin. rewrite forallb_forall in H.
  apply list_elem_of_In, H in Hin.
  apply negb_true_iff, orb_false_iff in Hin as [H1 H2].
  apply N.eqb_neq in H1. apply andb_false_iff in H2.
  destruct Hc as [->|[? ?]]; [done|].
  destruct H2 as [H2|H2]; [apply N.leb_gt in H2|apply N.leb_gt in H2]; lia.
Qed.

Lemma nav_bar_both n :
  (1 <? n)%Z = true -> (n <? 100)%Z = true ->
  nav_bar n
  = (nav_open ++ prev_a) ++ str_of_int (n - 1) ++ prev_b ++ str_of_int (n - 1)
      ++ (prev_c ++ day_html_nav_sep ++ next_a) ++ str_of_int (n + 1)
      ++ next_b ++ str_of_int (n + 1) ++ (next_c ++ nav_close).
Proof.
  intros H1 H2. unfold nav_bar, prev_link, next_link. rewrite H1, H2.
  by rewrite <- !app_assoc.
Qed.

Lemma nav_bar_prev_only n :
  (1 <? n)%Z = true -> (n <? 100)%Z = false ->
  nav_bar n
  = (nav_open ++ prev_a) ++ str_of_int (n - 1) ++ prev_b ++ str_of_int (n - 1)
      ++ (prev_c ++ day_html_nav_sep ++ nav_close).
Proof.
  intros H1 H2. unfold nav_bar, prev_link, next_link. rewrite H1, H2.
  by rewrite <- !app_assoc.
Qed.

Lemma nav_bar_next_only n :
  (1 <? n)%Z = false -> (n <? 100)%Z = true ->
  nav_bar n
  = (nav_open ++ day_html_nav_sep ++ next_a) ++ str_of_int (n + 1)
      ++ next_b ++ str_of_int (n + 1) ++ (next_c ++ nav_close).
Proof.
  intros H1 H2. unfold nav_bar, prev_link, next_link. rewrite H1, H2.
  by rewrite <- !app_assoc.
Qed.

Lemma nav_bar_none n :
  (1 <? n)%Z = false -> (n <? 100)%Z = false ->
  nav_bar n = nav_open ++ day_html_nav_sep ++ nav_close.
Proof.
  intros H1 H2. unfold nav_bar, prev_link, next_link. by rewrite H1, H2.
Qed.

(** The number of occurrences in the navigation bar of a text [p] without
    digits and minus sign, given its occurrences in the fixed parts. *)
Lemma occurrences_nav_bar p n :
  p <> [] -> no_int_char p ->
  occurrences p (nav_bar n)
  = if (1 <? n)%Z then
      if (n <? 100)%Z then
        (occurrences p (nav_open ++ prev_a) + occurrences p prev_b
         + occurrences p (prev_c ++ day_html_nav_sep ++ next_a)
         + occurrences p next_b + occurrences p (next_c ++ nav_close))%nat
      else
        (occurrences p (nav_open ++ prev_a) + occurrences p prev_b
         + occurrences p (prev_c ++ day_html_nav_sep ++ nav_close))%nat
    else
      if (n <? 100)%Z then
        (occurrences p (nav_open ++ day_html_nav_sep ++ next_a)
         + occurrences p next_b + occurrences p (next_c ++ nav_close))%nat
      else occurrences p (nav_open ++ day_html_nav_sep ++ nav_close).
Proof.
  intros Hp Hno.
  destruct (1 <? n)%Z eqn:H1, (n <? 100)%Z eqn:H2.
  - rewrite nav_bar_both by done.
    apply occurrences_gaps4; auto using str_of_int_nonnil;
      intros c; by apply str_of_int_gap.
  - rewrite nav_bar_prev_only by done.
    apply occurrences_gaps2; auto using str_of_int_nonnil;
      intros c; by apply str_of_int_gap.
  - rewrite nav_bar_next_only by done.
    apply occurrences_gaps2; auto using str_of_int_nonnil;
      intros c; by apply str_of_int_gap.
  - by rewrite nav_bar_none.
Qed.

Lemma prev_link_anchor n : (1 <? n)%Z = true -> prev_link n = prev_anchor n.
Proof.
  intros H. unfold prev_link, prev_anchor, prev_a, prev_b, prev_c. rewrite H.
  by rewrite <- !app_assoc.
Qed.

Lemma next_link_anchor n : (n <? 100)%Z = true -> next_link n = next_anchor n.
Proof.
  intros H. unfold next_link, next_anchor, next_a, next_b, next_c. rewrite H.
  by rewrite <- !app_assoc.
Qed.

Lemma contains_trans p q s :
  contains p q = true -> contains q s = true -> contains p s = true.
Proof.
  rewrite !contains_infix. intros (x & y & ->) (x' & y' & ->).
  exists (x' ++ x), (y ++ y'). by rewrite <- !app_assoc.
Qed.

Lemma contains_prev_anchor n :
  contains (prev_anchor n) (nav_bar n) = (1 <? n)%Z.
Proof.
  destruct (1 <? n)%Z eqn:H1.
  - apply contains_infix. exists nav_open, (day_html_nav_sep ++ next_link n ++ nav_close).
    unfold nav_bar. by rewrite prev_link_anchor, <- ?app_assoc.
  - destruct (contains _ _) eqn:E; [exfalso|done].
    set (p := [8592] ++ lit " Day ").
    assert (contains p (prev_anchor n) = true) as Hp.
    { apply contains_infix.
      exists (lit "<a href=" ++ dq ++ lit "day-" ++ str_of_int (n - 1) ++ lit ".html" ++ dq ++ lit ">"),
             (str_of_int (n - 1) ++ lit "</a>").
      unfold prev_anchor, p. by rewrite <- !app_assoc. }
    pose proof (contains_trans _ _ _ Hp E) as Hc.
    apply occurrences_contains in Hc. apply Hc.
    rewrite occurrences_nav_bar; [|done|by apply no_int_char_check].
    rewrite H1. by destruct (n <? 100)%Z; vm_compute.
Qed.

Lemma contains_next_anchor n :
  contains (next_anchor n) (nav_bar n) = (n <? 100)%Z.
Proof.
  destruct (n <? 100)%Z eqn:H2.
  - apply contains_infix. exists (nav_open ++ prev_link n ++ day_html_nav_sep), nav_close.
    unfold nav_bar. by rewrite next_link_anchor, <- ?app_assoc.
  - destruct (contains _ _) eqn:E; [exfalso|done].
    set (p := dq ++ lit ">Day ").
    assert (contains p (next_anchor n) = true) as Hp.
    { apply contains_infix.
      exists (lit "<a href=" ++ dq ++ lit "day-" ++ str_of_int (n + 1) ++ lit ".html"),
             (str_of_int (n + 1) ++ lit " " ++ [8594] ++ lit "</a>").
      unfold next_anchor, p. by rewrite <- !app_assoc. }
    pose proof (contains_trans _ _ _ Hp E) as Hc.
    apply occurrences_contains in Hc. apply Hc.
    rewrite occurrences_nav_bar; [|done|by apply no_int_char_check].
    rewrite H2. by destruct (1 <? n)%Z; vm_compute.
Qed.

Lemma day_page_nav_split day_num description files :
  generate_day_page day_num description files
  = day_page_header day_num ++ nav_bar day_num ++ day_page_main description files.
Proof.
  unfold generate_day_page, day_page_header, nav_bar, day_page_main.
  assert (day_html_nav
          = take (length day_html_nav - length nav_open) day_html_nav ++ nav_open) as Hn
    by (by vm_compute).
  assert (day_html_desc = nav_close ++ drop (length nav_close) day_html_desc) as Hd
    by (by vm_compute).
  rewrite Hn at 1. rewrite Hd at 1. by rewrite <- !app_assoc.
Qed.

(** C8.  The navigation bar of the page of day [n] holds the link to day
    [n-1] exactly when [n > 1] and the link to day [n+1] exactly when
    [n < 100], and no other link to a day page: none before day 1, none
    after day 100, both for the days 2 to 99. *)
Theorem day_page_nav_links (day_num : Z) (description : list N)
    (files : list (list N * list N)) :
  generate_day_page day_num description files
  = day_page_header day_num ++ nav_bar day_num ++ day_page_main description files
  /\ contains (prev_anchor day_num) (nav_bar day_num) = (1 <? day_num)%Z
  /\ contains (next_anchor day_num) (nav_bar day_num) = (day_num <? 100)%Z
  /\ occurrences day_link_open (nav_bar day_num)
     = ((if (1 <? day_num)%Z then 1 else 0) + (if (day_num <? 100)%Z then 1 else 0))%nat.
Proof.
  split; [apply day_page_nav_split|].
  split; [apply contains_prev_anchor|].
  split; [apply contains_next_anchor|].
  rewrite occurrences_nav_bar; [|done|by apply no_int_char_check].
  by destruct (1 <? day_num)%Z, (day_num <? 100)%Z; vm_compute.
Qed.

(** ** The index page *)

Lemma fold_left_append {A} (f : A -> list N) (l : list A) (acc : list N) :
  fold_left (fun acc x => acc ++ f x) l acc = acc ++ concat (f <$> l).
Proof.
  revert acc. induction l as [|x l IH]; intros acc.
  - by rewrite app_nil_r.
  - cbn [fold_left fmap list_fmap concat]. by rewrite IH, app_assoc.
Qed.

Lemma day_cards_concat day_descriptions :
  day_cards day_descriptions = concat (index_cards day_descriptions).
Proof. unfold day_cards, index_cards, range. by rewrite fold_left_append. Qed.

Lemma index_cards_lookup day_descriptions (i : nat) :
  index_cards day_descriptions !! i
  = if decide (i < 100)%nat
    then Some (day_card (1 + Z.of_nat i)%Z
                 (card_preview (get_description day_descriptions (1 + Z.of_nat i)%Z)))
    else None.
Proof.
  unfold index_cards. rewrite list_lookup_fmap.
  case_decide as Hi.
  - rewrite lookup_seqZ_lt by lia. done.
  - rewrite lookup_seqZ_ge by lia. done.
Qed.

(** C5.  Whatever the mapping holds, the index page is its fixed head, one
    card for each of the days 1 to 100 in this order, exactly 100 of them,
    and its fixed end.  The card of day [n] is the [day-card] block with
    the number [Day n], the preview of the description of the day and the
    link to [day-n.html]; a day without an entry has the card with the
    preview [Click to view details].  Neither the head nor the end holds a
    [day-card] block. *)
Theorem index_page_has_100_cards (day_descriptions : gmap Z (list N)) :
  let card (day_num : Z) (preview : list N) :=
    lit "
        <div class=" ++ dq ++ lit "day-card" ++ dq ++ lit ">
            <div class=" ++ dq ++ lit "day-number" ++ dq ++ lit ">Day "
      ++ str_of_int day_num ++ lit "</div>
            <div class=" ++ dq ++ lit "day-preview" ++ dq ++ lit ">"
      ++ preview ++ lit "</div>
            <a href=" ++ dq ++ lit "day-" ++ str_of_int day_num ++ lit ".html" ++ dq
      ++ lit " class=" ++ dq ++ lit "day-link" ++ dq ++ lit ">View Details " ++ [8594]
      ++ lit "</a>
        </div>" in
  generate_index_page day_descriptions
  = index_html_head ++ concat (index_cards day_descriptions) ++ index_html_end
  /\ length (index_cards day_descriptions) = 100%nat
  /\ (forall i : nat,
        index_cards day_descriptions !! i
        = if decide (i < 100)%nat
          then Some (card (1 + Z.of_nat i)%Z
                       (card_preview (get_description day_descriptions (1 + Z.of_nat i)%Z)))
          else None)
  /\ (forall i : nat,
        index_cards (delete (1 + Z.of_nat i)%Z day_descriptions) !! i
        = if decide (i < 100)%nat
          then Some (card (1 + Z.of_nat i)%Z (lit "Click to view details"))
          else None)
  /\ occurrences (lit "<div class=" ++ dq ++ lit "day-card" ++ dq ++ lit ">")
       index_html_head = 0%nat
  /\ occurrences (lit "<div class=" ++ dq ++ lit "day-card" ++ dq ++ lit ">")
       index_html_end = 0%nat.
Proof.
  intros card.
  assert (forall n p, day_card n p = card n p) as Hcard.
  { intros n p. unfold day_card, card, card_html_open, card_html_preview,
      card_html_link, card_html_close.
    rewrite <- !app_assoc. done. }
  split; [unfold generate_index_page; by rewrite day_cards_concat|].
  split; [unfold index_cards; by rewrite length_fmap, length_seqZ|].
  split; [intros i; rewrite index_cards_lookup; by rewrite Hcard|].
  split; [|split; by vm_compute].
  intros i. rewrite index_cards_lookup. case_decide; [|done].
  unfold get_description. by rewrite lookup_delete_eq, Hcard.
Qed.

Lemma preview_loop_find lines :
  preview_loop lines []
  = match List.find preview_line (strip <$> lines) with
    | Some line => take 150 line ++ (if (150 <? length line)%nat then lit "..." else [])
    | None => []
    end.
Proof.
  induction lines as [|line lines IH]; [done|].
  cbn [preview_loop fmap list_fmap List.find]. fold (preview_line (strip line)).
  by destruct (preview_line (strip line)).
Qed.

Lemma preview_line_nonempty line : preview_line line = true -> line <> [].
Proof.
  unfold preview_line. intros H. apply andb_true_iff in H as [H _].
  by apply bool_decide_eq_true in H.
Qed.

Lemma card_preview_spec desc : card_preview desc = spec_preview desc.
Proof.
  unfold card_preview, spec_preview. destruct desc as [|c desc]; [done|].
  rewrite preview_loop_find.
  destruct (List.find _ _) as [line|] eqn:Hfind; [|done].
  apply find_some in Hfind as [_ Hline]. apply preview_line_nonempty in Hline.
  unfold truncate150. destruct line as [|x line]; [done|].
  destruct (150 <? length (x :: line))%nat eqn:Hlen; [done|].
  apply Nat.ltb_ge in Hlen. rewrite take_ge by done. by rewrite app_nil_r.
Qed.


(** ** The matching engine *)

Section engine_facts.

Implicit Types (p : N -> bool) (prev : option N) (run body rest : list N).

Lemma prev_after_cons prev x run :
  prev_after prev (x :: run) = prev_after (Some x) run.
Proof. unfold prev_after. rewrite last_cons. by destruct (last run). Qed.

Lemma succeeds_orelse (a b : option (cursor * gmap nat (list N))) :
  succeeds (match a with Some res => Some res | None => b end)
  = succeeds a || succeeds b.
Proof. by destruct a. Qed.

Lemma succeeds_false o : succeeds o = false -> o = None.
Proof. by destruct o. Qed.

(** A greedy repetition that can take exactly [run] gives the pattern after
    it the text after [run] first. *)
Lemma greedy_run p lo hi k n prev pos run rest r :
  Forall (fun x => p x = true) run ->
  (lo <= n + length run)%nat ->
  match hi with Some h => (n + length run <= h)%nat | None => True end ->
  match rest with
  | x :: _ => p x = false \/ hi = Some (n + length run)%nat
  | [] => True
  end ->
  k (Cursor (prev_after prev run) (pos + length run) rest) = Some r ->
  greedy p lo hi k n prev pos (run ++ rest) = Some r.
Proof.
  revert n prev pos. induction run as [|y run IH]; intros n prev pos Hrun Hlo Hhi Hstop Hk.
  - cbn [app length] in *. rewrite Nat.add_0_r in *.
    unfold prev_after in Hk. cbn [last] in Hk.
    assert ((lo <=? n)%nat = true) as Hle by by apply Nat.leb_le.
    destruct rest as [|x rest]; cbn [greedy]; rewrite Hle; [done|].
    destruct Hstop as [Hp| ->]; [by rewrite Hp|].
    cbn [below]. rewrite Nat.ltb_irrefl, andb_false_r. done.
  - cbn [app greedy]. apply Forall_cons in Hrun as [Hy Hrun]. rewrite Hy.
    cbn [length] in *. rewrite Nat.add_succ_r in *.
    assert (below n hi = true) as ->.
    { destruct hi as [h|]; [|done]. apply Nat.ltb_lt. lia. }
    cbn [andb]. rewrite (IH (S n) (Some y) (S pos)); try done.
    by rewrite prev_after_cons in Hk.
Qed.

(** A lazy repetition stops at the first offset at which the pattern after
    it matches. *)
Lemma lazy_first p lo k n prev pos body rest r :
  Forall (fun x => p x = true) body ->
  (forall i, (i < length body)%nat ->
     k (Cursor (prev_after prev (take i body)) (pos + i) (drop i body ++ rest)) = None) ->
  (lo <= n)%nat ->
  k (Cursor (prev_after prev body) (pos + length body) rest) = Some r ->
  lazy p lo None k n prev pos (body ++ rest) = Some r.
Proof.
  revert n prev pos. induction body as [|y body IH]; intros n prev pos Hbody Hnone Hlo Hk.
  - cbn [app length] in *. rewrite Nat.add_0_r in *.
    unfold prev_after in Hk. cbn [last] in Hk.
    assert ((lo <=? n)%nat = true) as Hle by by apply Nat.leb_le.
    destruct rest as [|x rest]; cbn [lazy]; by rewrite Hle, Hk.
  - cbn [app lazy]. apply Forall_cons in Hbody as [Hy Hbody].
    pose proof (Hnone 0%nat ltac:(cbn; lia)) as H0.
    cbn [take drop app] in H0. unfold prev_after in H0. cbn [last] in H0.
    rewrite Nat.add_0_r in H0. rewrite H0.
    destruct (lo <=? n)%nat; rewrite Hy; cbn [andb below].
    all: apply IH; [done| |lia|].
    all: try (intros i Hi; specialize (Hnone (S i) ltac:(cbn; lia));
              cbn [take drop] in Hnone; rewrite prev_after_cons in Hnone;
              by rewrite Nat.add_succ_r in Hnone).
    all: rewrite prev_after_cons in Hk; cbn [length] in Hk;
         by rewrite Nat.add_succ_r in Hk.
Qed.

(** With a pattern after it that never fails, a greedy repetition that has
    its minimum succeeds. *)
Lemma greedy_some p lo hi (g : gmap nat (list N)) n prev pos rest :
  (lo <= n)%nat ->
  exists c', greedy p lo hi (fun c' => Some (c', g)) n prev pos rest = Some (c', g).
Proof.
  revert n prev pos. induction rest as [|x rest IH]; intros n prev pos Hlo.
  - cbn [greedy]. apply Nat.leb_le in Hlo as ->. eauto.
  - cbn [greedy]. apply Nat.leb_le in Hlo as Hle. rewrite Hle.
    destruct (p x && below n hi); [|eauto].
    destruct (IH (S n) (Some x) (S pos) ltac:(lia)) as [c' ->]. eauto.
Qed.

(** Whether a repetition matches depends on the text ahead only. *)
Lemma greedy_text p lo hi (k1 k2 : cursor -> option (cursor * gmap nat (list N)))
    n rest prev1 pos1 prev2 pos2 :
  (forall c1 c2, c_rest c1 = c_rest c2 -> succeeds (k1 c1) = succeeds (k2 c2)) ->
  succeeds (greedy p lo hi k1 n prev1 pos1 rest)
  = succeeds (greedy p lo hi k2 n prev2 pos2 rest).
Proof.
  intros Hk. revert n prev1 pos1 prev2 pos2.
  induction rest as [|x rest IH]; intros n prev1 pos1 prev2 pos2; cbn [greedy].
  - destruct (lo <=? n)%nat; [by apply Hk|done].
  - assert (succeeds (if (lo <=? n)%nat then k1 (Cursor prev1 pos1 (x :: rest)) else None)
            = succeeds (if (lo <=? n)%nat then k2 (Cursor prev2 pos2 (x :: rest)) else None))
      as Hstop by (destruct (lo <=? n)%nat; [by apply Hk|done]).
    destruct (p x && below n hi); [|done].
    rewrite !succeeds_orelse. by rewrite (IH (S n) (Some x) (S pos1) (Some x) (S pos2)), Hstop.
Qed.

Lemma lazy_text p lo hi (k1 k2 : cursor -> option (cursor * gmap nat (list N)))
    n rest prev1 pos1 prev2 pos2 :
  (forall c1 c2, c_rest c1 = c_rest c2 -> succeeds (k1 c1) = succeeds (k2 c2)) ->
  succeeds (lazy p lo hi k1 n prev1 pos1 rest)
  = succeeds (lazy p lo hi k2 n prev2 pos2 rest).
Proof.
  intros Hk. revert n prev1 pos1 prev2 pos2.
  induction rest as [|x rest IH]; intros n prev1 pos1 prev2 pos2; cbn [lazy].
  - destruct (lo <=? n)%nat; [|done].
    pose proof (Hk (Cursor prev1 pos1 []) (Cursor prev2 pos2 []) eq_refl) as H.
    by destruct (k1 _), (k2 _).
  - assert (succeeds (if (lo <=? n)%nat then k1 (Cursor prev1 pos1 (x :: rest)) else None)
            = succeeds (if (lo <=? n)%nat then k2 (Cursor prev2 pos2 (x :: rest)) else None))
      as Hstop by (destruct (lo <=? n)%nat; [by apply Hk|done]).
    specialize (IH (S n) (Some x) (S pos1) (Some x) (S pos2)).
    destruct (if (lo <=? n)%nat then k1 _ else None),
             (if (lo <=? n)%nat then k2 _ else None); try done.
    by destruct (p x && below n hi).
Qed.

Lemma run_text r :
  no_bol r = true ->
  forall k1 k2 : cursor -> gmap nat (list N) -> option (cursor * gmap nat (list N)),
  (forall c1 c2 g1 g2, c_rest c1 = c_rest c2 ->
     succeeds (k1 c1 g1) = succeeds (k2 c2 g2)) ->
  forall c1 c2 g1 g2, c_rest c1 = c_rest c2 ->
  succeeds (run r k1 c1 g1) = succeeds (run r k2 c2 g2).
Proof.
  induction r as [|a|r1 IH1 r2 IH2|r1 IH1 r2 IH2|n r1 IH1|p lo hi|p lo hi| | |r1 IH1];
    intros Hr k1 k2 Hk c1 c2 g1 g2 Hc; cbn [run no_bol] in *.
  - by apply Hk.
  - rewrite Hc. destruct (c_rest c2) as [|x rest]; [done|].
    destruct (x =? a); [by apply Hk|done].
  - apply andb_true_iff in Hr as [Hr1 Hr2].
    apply IH1; [done| |done]. intros. by apply IH2.
  - apply andb_true_iff in Hr as [Hr1 Hr2].
    rewrite !succeeds_orelse. by rewrite (IH1 Hr1 k1 k2 Hk c1 c2 g1 g2 Hc),
      (IH2 Hr2 k1 k2 Hk c1 c2 g1 g2 Hc).
  - apply IH1; [done| |done]. intros. by apply Hk.
  - rewrite Hc. apply greedy_text. intros. by apply Hk.
  - rewrite Hc. apply lazy_text. intros. by apply Hk.
  - done.
  - unfold at_end. rewrite Hc. destruct (c_rest c2) eqn:E; [|done].
    apply Hk. congruence.
  - pose proof (IH1 Hr (fun c' g' => Some (c', g')) (fun c' g' => Some (c', g'))
                  ltac:(done) c1 c2 g1 g2 Hc) as H.
    destruct (run r1 _ c1 g1) as [[? ?]|], (run r1 _ c2 g2) as [[? ?]|]; try done.
    by apply Hk.
Qed.

(** Steps of [run] on the text they consume. *)
Lemma run_rcat_cons r rs k c g :
  run (rcat (r :: rs)) k c g = run r (run (rcat rs) k) c g.
Proof. done. Qed.

Lemma run_rcat_nil k c g : run (rcat []) k c g = k c g.
Proof. done. Qed.

Lemma run_rlit s k prev pos rest g :
  run (rlit s) k (Cursor prev pos (s ++ rest)) g
  = k (Cursor (prev_after prev s) (pos + length s) rest) g.
Proof.
  revert prev pos. induction s as [|a s IH]; intros prev pos.
  - unfold prev_after. cbn. by rewrite Nat.add_0_r.
  - unfold rlit in *. cbn [fmap list_fmap rcat foldr run app c_rest c_pos length].
    rewrite N.eqb_refl. cbn [rcat] in IH. rewrite IH.
    by rewrite prev_after_cons, Nat.add_succ_r.
Qed.

Lemma run_greedy_run p lo hi k prev pos run rest g r :
  Forall (fun x => p x = true) run ->
  (lo <= length run)%nat ->
  match hi with Some h => (length run <= h)%nat | None => True end ->
  match rest with
  | x :: _ => p x = false \/ hi = Some (length run)
  | [] => True
  end ->
  k (Cursor (prev_after prev run) (pos + length run) rest) g = Some r ->
  Re.run (RGreedy p lo hi) k (Cursor prev pos (run ++ rest)) g = Some r.
Proof. intros. cbn [Re.run c_prev c_pos c_rest]. by apply greedy_run. Qed.

End engine_facts.

(** ** Matches do not go backwards *)

Section progress_facts.

Implicit Types (p : N -> bool) (prev : option N) (rest : list N).

Lemma greedy_progress p lo hi k n prev pos rest res :
  greedy p lo hi k n prev pos rest = Some res ->
  exists c', k c' = Some res /\ (pos + (lo - n) <= c_pos c')%nat.
Proof.
  revert n prev pos. induction rest as [|x rest IH]; intros n prev pos; cbn [greedy].
  - destruct (Nat.leb_spec lo n); [|done]. intros Hk.
    eexists. split; [exact Hk|]. cbn. lia.
  - assert ((if (lo <=? n)%nat then k (Cursor prev pos (x :: rest)) else None) = Some res ->
            exists c', k c' = Some res /\ (pos + (lo - n) <= c_pos c')%nat) as Hstop.
    { destruct (Nat.leb_spec lo n); [|done]. intros Hk.
      eexists. split; [exact Hk|]. cbn. lia. }
    destruct (p x && below n hi); [|done].
    destruct (greedy p lo hi k (S n) (Some x) (S pos) rest) as [res'|] eqn:E; [|done].
    intros [= ->]. destruct (IH _ _ _ E) as (c' & Hk & Hpos).
    exists c'. split; [done|lia].
Qed.

Lemma lazy_progress p lo hi k n prev pos rest res :
  lazy p lo hi k n prev pos rest = Some res ->
  exists c', k c' = Some res /\ (pos <= c_pos c')%nat.
Proof.
  revert n prev pos. induction rest as [|x rest IH]; intros n prev pos; cbn [lazy].
  - destruct (lo <=? n)%nat; [|done].
    destruct (k _) as [res'|] eqn:E; [|done]. intros [= ->]. eauto.
  - destruct (if (lo <=? n)%nat then k (Cursor prev pos (x :: rest)) else None)
      as [res'|] eqn:E.
    + intros [= ->]. destruct (lo <=? n)%nat; [|done]. eauto.
    + destruct (p x && below n hi); [|done]. intros H.
      destruct (IH _ _ _ H) as (c' & Hk & Hpos). exists c'. split; [done|lia].
Qed.

(** A successful run hands its result over from a continuation that was
    called at the same offset or later. *)
Lemma run_progress r :
  forall (k : cursor -> gmap nat (list N) -> option (cursor * gmap nat (list N))) c g res,
  run r k c g = Some res ->
  exists c' g', k c' g' = Some res /\ (c_pos c <= c_pos c')%nat.
Proof.
  induction r as [|a|r1 IH1 r2 IH2|r1 IH1 r2 IH2|n r1 IH1|p lo hi|p lo hi| | |r1 IH1];
    intros k c g res; cbn [run].
  - eauto.
  - destruct (c_rest c) as [|x rest]; [done|]. destruct (x =? a); [|done].
    intros H. eexists _, _. split; [exact H|]. cbn. lia.
  - intros H. destruct (IH1 _ _ _ _ H) as (c1 & g1 & H1 & Hp1).
    destruct (IH2 _ _ _ _ H1) as (c2 & g2 & H2 & Hp2).
    exists c2, g2. split; [done|lia].
  - destruct (run r1 k c g) as [res'|] eqn:E.
    + intros [= ->]. eauto.
    + eauto.
  - intros H. destruct (IH1 _ _ _ _ H) as (c1 & g1 & H1 & Hp1). eauto.
  - intros H. destruct (greedy_progress _ _ _ _ _ _ _ _ _ H) as (c' & Hk & Hp).
    exists c', g. split; [done|lia].
  - intros H. destruct (lazy_progress _ _ _ _ _ _ _ _ _ H) as (c' & Hk & Hp).
    exists c', g. split; [done|lia].
  - destruct (at_bol c); [|done]. eauto.
  - destruct (at_end c); [|done]. eauto.
  - destruct (run r1 _ c g) as [[c1 g1]|]; [|done]. eauto.
Qed.

End progress_facts.

(** ** The pattern of parse_readme on a day section *)

Section day_section.

Context `{U : UnicodeDecimal} {L : DecimalLaws U}.

Implicit Types (prev : option N) (text rest post : list N).

Lemma is_decimal_colon : is_decimal 58 = false.
Proof. by rewrite decimal_ascii. Qed.

Lemma hashes_run hashes :
  hashes ∈ [lit "#"; lit "##"] ->
  Forall (fun x => is_hash x = true) hashes
  /\ (1 <= length hashes <= 2)%nat.
Proof.
  intros H. apply elem_of_cons in H as [->|H];
    [|apply list_elem_of_singleton in H as ->]; split; (by repeat constructor) || (cbn; lia).
Qed.

(** The start of a day section is recognised by the lookahead. *)
Lemma next_header_matches hashes digits post prev pos (g : gmap nat (list N)) :
  hashes ∈ [lit "#"; lit "##"] ->
  digits <> [] -> Forall (fun x => is_decimal x = true) digits ->
  exists c',
    run next_header (fun c g => Some (c, g))
      (Cursor prev pos (nl :: hashes ++ lit " Day " ++ digits ++ post)) g
    = Some (c', g).
Proof.
  intros Hh Hne Hd. destruct (hashes_run _ Hh) as [Hrun Hlen].
  destruct digits as [|d digits]; [done|]. apply Forall_cons in Hd as [Hd _].
  unfold next_header. eval_lits.
  rewrite run_rcat_cons. cbn [run c_rest c_pos]. rewrite N.eqb_refl.
  set (k5 := run (rcat [RGreedy is_decimal 1 None]) (fun c g => Some (c, g))).
  assert (forall prev pos, exists c',
            k5 (Cursor prev pos ((d :: digits) ++ post)) g = Some (c', g)) as H5.
  { intros prev' pos'. unfold k5. cbn [rcat foldr run c_prev c_pos c_rest app greedy].
    rewrite Hd. cbn [andb below].
    destruct (greedy_some is_decimal 1 None g 1 (Some d) (S pos') (digits ++ post))
      as [c' ->]; [lia|]. eauto. }
  destruct (H5 (prev_after (prev_after (prev_after (prev_after (Some nl) hashes) [32]) [68; 97; 121]) [32])
              (S pos + length hashes + 1 + 3 + 1)%nat) as [c' Hc'].
  exists c'.
  rewrite run_rcat_cons.
  apply run_greedy_run; [done|lia|lia|by left|].
  rewrite run_rcat_cons.
  apply (run_greedy_run is_space 1 None _ _ _ [32] (68 :: _));
    [by repeat constructor|cbn; lia|done|by left|].
  rewrite run_rcat_cons.
  change (68 :: 97 :: 121 :: 32 :: ?x) with ([68; 97; 121] ++ 32 :: x).
  rewrite (run_rlit [68; 97; 121]).
  rewrite run_rcat_cons.
  apply (run_greedy_run is_space 1 None _ _ _ [32] ((d :: digits) ++ post));
    [by repeat constructor|cbn; lia|done|left; by apply decimal_not_space|].
  exact Hc'.
Qed.

Lemma look_at_header k c (g : gmap nat (list N)) :
  (exists c', run next_header (fun c g => Some (c, g)) c g = Some (c', g)) ->
  run (RLook (RAlt next_header REnd)) k c g = k c g.
Proof. intros [c' H]. cbn [run]. by rewrite H. Qed.

Lemma look_not_at_header k c (g : gmap nat (list N)) :
  header_ahead (c_rest c) = false -> c_rest c <> [] ->
  run (RLook (RAlt next_header REnd)) k c g = None.
Proof.
  intros Hh Hne. cbn [run].
  assert (run next_header (fun c g => Some (c, g)) c g = None) as ->.
  { apply succeeds_false. rewrite <- Hh. unfold header_ahead.
    by apply run_text. }
  unfold at_end. by destruct (c_rest c).
Qed.

Lemma no_header_inside_drop text rest i :
  no_header_inside text rest = true -> (i < length text)%nat ->
  header_ahead (drop i (text ++ rest)) = false.
Proof.
  unfold no_header_inside. rewrite forallb_forall. intros H Hi.
  apply negb_true_iff, (H i), in_seq. lia.
Qed.

(** A text with a character that is not white space, split at the first one. *)
Lemma lstrip_split text :
  (exists c, c ∈ text /\ is_space c = false) ->
  exists ws x body,
    text = ws ++ x :: body
    /\ Forall (fun c => is_space c = true) ws
    /\ is_space x = false
    /\ lstrip text = x :: body.
Proof.
  induction text as [|c text IH]; intros (c' & Hin & Hc').
  - by apply elem_of_nil in Hin.
  - destruct (is_space c) eqn:Hc.
    + apply elem_of_cons in Hin as [->|Hin]; [congruence|].
      destruct IH as (ws & x & body & -> & Hws & Hx & Hstrip); [by eauto|].
      exists (c :: ws), x, body. repeat split; [by constructor|done|].
      unfold lstrip in *. cbn [dropwhile app]. by rewrite Hc.
    + exists [], c, text. repeat split; [done..|].
      unfold lstrip. cbn [dropwhile]. by rewrite Hc.
Qed.

Lemma run_seq r1 r2 k c (g : gmap nat (list N)) :
  run (RSeq r1 r2) k c g = run r1 (run r2 k) c g.
Proof. done. Qed.

Lemma run_group n r1 k c (g : gmap nat (list N)) :
  run (RGroup n r1) k c g
  = run r1 (fun c' g' => k c' (<[n := take (c_pos c' - c_pos c) (c_rest c)]> g')) c g.
Proof. done. Qed.

Lemma run_alt_left r1 r2 k c (g : gmap nat (list N)) r :
  run r1 k c g = Some r -> run (RAlt r1 r2) k c g = Some r.
Proof. intros H. cbn [run]. by rewrite H. Qed.

Lemma run_char a k prev pos rest (g : gmap nat (list N)) :
  run (RChar a) k (Cursor prev pos (a :: rest)) g = k (Cursor (Some a) (S pos) rest) g.
Proof. cbn [run c_rest c_pos]. by rewrite N.eqb_refl. Qed.

Lemma run_lazy p lo hi k prev pos rest (g : gmap nat (list N)) :
  run (RLazy p lo hi) k (Cursor prev pos rest) g
  = lazy p lo hi (fun c' => k c' g) 0 prev pos rest.
Proof. done. Qed.

Lemma pattern_start :
  pattern = RSeq (RAlt RBol (RChar nl)) pattern_after_start.
Proof. done. Qed.

(** The pattern, after its first item, on a day section that stands before
    the start of the next one: group 1 is the header marker, group 2 the
    digits and group 3 the text from its first character that is not white
    space to the newline before the next section. *)
Lemma section_matches hashes digits text next_hashes next_digits post prev pos :
  hashes ∈ [lit "#"; lit "##"] ->
  digits <> [] -> Forall (fun x => is_decimal x = true) digits ->
  (exists c, c ∈ text /\ is_space c = false) ->
  next_hashes ∈ [lit "#"; lit "##"] ->
  next_digits <> [] -> Forall (fun x => is_decimal x = true) next_digits ->
  let rest := nl :: next_hashes ++ lit " Day " ++ next_digits ++ post in
  no_header_inside text rest = true ->
  exists c',
    run pattern_after_start (fun c g => Some (c, g))
      (Cursor prev pos (hashes ++ lit " Day " ++ digits ++ 58 :: text ++ rest)) ∅
    = Some (c', <[3%nat := lstrip text]> (<[2%nat := digits]> (<[1%nat := hashes]> ∅)))
    /\ c_pos c' = (pos + length hashes + 5 + length digits + 1 + length text)%nat.
Proof.
  intros Hh Hne Hd Htext Hnh Hnne Hnd rest Hinside.
  destruct (hashes_run _ Hh) as [Hrun Hlen].
  destruct (lstrip_split _ Htext) as (ws & x & body & Ht & Hws & Hx & Hstrip).
  rewrite Hstrip. set (body' := x :: body) in *.
  assert (rest <> []) as Hrest by done.
  assert (forall prev pos (g : gmap nat (list N)), exists c',
            run next_header (fun c g => Some (c, g)) (Cursor prev pos rest) g
            = Some (c', g)) as Hnext
    by (intros; by apply next_header_matches).
  clearbody rest.
  assert (length text = length ws + length body')%nat as Hlt
    by (by rewrite Ht, length_app).
  destruct digits as [|d digits]; [done|]. pose proof Hd as Hd'.
  apply Forall_cons in Hd' as [Hd1 _].
  unfold pattern_after_start, pattern. cbn [rcat foldr]. eval_lits.
  eexists. split.
  - rewrite run_seq, run_group.
    apply run_greedy_run; [done|lia|lia|by left|].
    cbn [c_pos c_rest].
    replace (pos + length hashes - pos)%nat with (length hashes) by lia.
    rewrite take_app_length.
    rewrite run_seq.
    apply (run_greedy_run is_space 1 None _ _ _ [32] (68 :: _));
      [by repeat constructor|cbn; lia|done|by left|].
    rewrite run_seq.
    change (68 :: 97 :: 121 :: 32 :: ?y) with ([68; 97; 121] ++ 32 :: y).
    rewrite (run_rlit [68; 97; 121]).
    rewrite run_seq.
    apply (run_greedy_run is_space 1 None _ _ _ [32] ((d :: digits) ++ _));
      [by repeat constructor|cbn; lia|done|left; by apply decimal_not_space|].
    rewrite run_seq, run_group.
    apply (run_greedy_run is_decimal 1 None _ _ _ (d :: digits) (58 :: _));
      [done|cbn; lia|done|left; apply is_decimal_colon|].
    cbn [c_pos c_rest].
    match goal with |- context [take (?a + ?n - ?a)%nat _] =>
      replace (a + n - a)%nat with n by lia end.
    rewrite take_app_length.
    rewrite run_seq. apply run_alt_left.
    rewrite run_seq.
    apply (run_greedy_run is_space 0 None _ _ _ [] (58 :: _));
      [done|cbn; lia|done|by left|].
    rewrite run_seq, run_char.
    rewrite run_seq. rewrite Ht, <- app_assoc.
    apply (run_greedy_run is_space 0 None _ _ _ ws (body' ++ rest));
      [done|cbn; lia|done|by left|].
    change (run REps ?k ?c ?g) with (k c g).
    rewrite run_seq, run_group, run_lazy.
    apply lazy_first; [by apply Forall_true|..|lia|].
    + intros i Hi. rewrite run_seq. apply look_not_at_header; cbn [c_rest].
      * replace (drop i body' ++ rest) with (drop (length ws + i) (text ++ rest));
          [apply no_header_inside_drop; [done|lia]|].
        rewrite Ht, <- app_assoc, drop_app. rewrite drop_ge by lia.
        replace (length ws + i - length ws)%nat with i by lia.
        rewrite drop_app. by replace (i - length body')%nat with 0%nat by lia.
      * destruct rest; [done|]. by destruct (drop i body').
    + rewrite run_seq, look_at_header by apply Hnext.
      change (run REps ?k ?c ?g) with (k c g). cbn [c_pos c_rest].
      match goal with |- context [take (?a + ?n - ?a)%nat _] =>
        replace (a + n - a)%nat with n by lia end.
      rewrite take_app_length. reflexivity.
  - cbn [c_pos length]. lia.
Qed.

End day_section.

Lemma run_greedy p lo hi k c (g : gmap nat (list N)) :
  run (RGreedy p lo hi) k c g
  = greedy p lo hi (fun c' => k c' g) 0 (c_prev c) (c_pos c) (c_rest c).
Proof. done. Qed.

(** Every match of the pattern takes at least one character, so that
    [finditer] never has to search again at the offset of an empty match. *)
Lemma pattern_match_nonempty `{U : UnicodeDecimal} c m :
  match_at pattern c = Some m -> (m_start m < m_end m)%nat.
Proof.
  unfold match_at.
  destruct (run pattern _ c ∅) as [[c' g']|] eqn:E; [|done]. intros [= <-].
  cbn [m_start m_end].
  rewrite pattern_start, run_seq in E.
  destruct (run_progress _ _ _ _ _ E) as (c1 & g1 & E1 & Hp1).
  unfold pattern_after_start, pattern in E1. cbn [rcat foldr] in E1.
  rewrite run_seq, run_group, run_greedy in E1.
  destruct (greedy_progress _ _ _ _ _ _ _ _ _ E1) as (c2 & E2 & Hp2).
  destruct (run_progress _ _ _ _ _ E2) as (c3 & g3 & E3 & Hp3).
  injection E3 as <- _. lia.
Qed.

Lemma scan_nonempty_matches `{U : UnicodeDecimal} skip prev pos rest m :
  m ∈ scan pattern skip prev pos rest -> (m_start m < m_end m)%nat.
Proof.
  revert skip prev pos. induction rest as [|x s IH]; intros skip prev pos Hm.
  - destruct skip; cbn [scan] in Hm; [|by apply elem_of_nil in Hm].
    destruct (match_at _ _) as [m'|] eqn:E; [|by apply elem_of_nil in Hm].
    apply list_elem_of_singleton in Hm as ->. by eapply pattern_match_nonempty.
  - destruct skip; cbn [scan] in Hm; [|by eapply IH].
    destruct (match_at _ _) as [m'|] eqn:E; [|by eapply IH].
    apply elem_of_cons in Hm as [->|Hm]; [by eapply pattern_match_nonempty|by eapply IH].
Qed.

Lemma finditer_nonempty_matches `{U : UnicodeDecimal} content m :
  m ∈ finditer pattern content -> (m_start m < m_end m)%nat.
Proof. apply scan_nonempty_matches. Qed.

(** ** The groups of a match *)

(** Inclusions between the groups set so far. *)
Ltac split_unions :=
  repeat match goal with
  | H : _ ∪ _ ⊆ _ |- _ => apply union_subseteq in H as [? ?]
  end.

Ltac groups_included :=
  split_unions; repeat apply union_least;
  first [ done
        | apply empty_subseteq
        | by etrans
        | etrans; [apply intersection_subseteq_l|done]
        | etrans; [apply intersection_subseteq_r|done] ].

Lemma run_groups r :
  forall (k : cursor -> gmap nat (list N) -> option (cursor * gmap nat (list N))) c g res,
  run r k c g = Some res ->
  exists c' g', k c' g' = Some res /\ dom g ∪ sure_groups r ⊆ dom g'.
Proof.
  induction r as [|a|r1 IH1 r2 IH2|r1 IH1 r2 IH2|n r1 IH1|p lo hi|p lo hi| | |r1 IH1];
    intros k c g res; cbn [run sure_groups].
  - intros Hr. exists c, g. split; [done|groups_included].
  - destruct (c_rest c) as [|x rest]; [done|]. destruct (x =? a); [|done].
    intros Hr. eexists _, g. split; [exact Hr|groups_included].
  - intros Hr. destruct (IH1 _ _ _ _ Hr) as (c1 & g1 & H1 & Hg1).
    destruct (IH2 _ _ _ _ H1) as (c2 & g2 & H2 & Hg2).
    exists c2, g2. split; [done|groups_included].
  - destruct (run r1 k c g) as [res'|] eqn:E.
    + intros [= ->]. destruct (IH1 _ _ _ _ E) as (c1 & g1 & H1 & Hg1).
      exists c1, g1. split; [done|groups_included].
    + intros Hr. destruct (IH2 _ _ _ _ Hr) as (c2 & g2 & H2 & Hg2).
      exists c2, g2. split; [done|groups_included].
  - intros Hr. destruct (IH1 _ _ _ _ Hr) as (c1 & g1 & H1 & Hg1).
    eexists c1, _. split; [exact H1|]. rewrite dom_insert. split_unions.
    repeat apply union_least.
    + etrans; [done|apply union_subseteq_r].
    + apply union_subseteq_l.
    + etrans; [done|apply union_subseteq_r].
  - intros Hr. destruct (greedy_progress _ _ _ _ _ _ _ _ _ Hr) as (c' & Hk & _).
    exists c', g. split; [done|groups_included].
  - intros Hr. destruct (lazy_progress _ _ _ _ _ _ _ _ _ Hr) as (c' & Hk & _).
    exists c', g. split; [done|groups_included].
  - destruct (at_bol c); [|done]. intros Hr. exists c, g. split; [done|groups_included].
  - destruct (at_end c); [|done]. intros Hr. exists c, g. split; [done|groups_included].
  - destruct (run r1 _ c g) as [[c1 g1]|] eqn:E; [|done]. intros Hr.
    destruct (IH1 _ _ _ _ E) as (c' & g' & [= -> ->] & Hg).
    exists c, g1. split; [done|groups_included].
Qed.

(** The three groups of the pattern are set in every match: [group] never
    meets a group that did not take part. *)
Lemma pattern_match_groups `{U : UnicodeDecimal} c m :
  match_at pattern c = Some m ->
  is_Some (m_groups m !! 1%nat) /\ is_Some (m_groups m !! 2%nat)
  /\ is_Some (m_groups m !! 3%nat).
Proof.
  unfold match_at.
  destruct (run pattern _ c ∅) as [[c' g']|] eqn:E; [|done]. intros [= <-].
  cbn [m_groups].
  destruct (run_groups _ _ _ _ _ E) as (c1 & g1 & [= -> ->] & Hg).
  unfold pattern in Hg. cbn [rcat foldr sure_groups] in Hg.
  rewrite <- !elem_of_dom. split_unions.
  repeat split; match goal with H : {[_]} ⊆ _ |- _ ∈ _ => by apply singleton_subseteq_l in H end.
Qed.

(** ** The loop of parse_readme *)

Section parse_loop.

Context `{U : UnicodeDecimal}.

Lemma record_match_lookup (acc : gmap Z (list N)) m d :
  record_match acc m !! d
  = if decide (day_of m = d) then Some (description_of m) else acc !! d.
Proof.
  unfold record_match. fold (day_of m) (description_of m).
  by rewrite lookup_insert.
Qed.

Lemma fold_record_lookup ms (acc : gmap Z (list N)) d :
  fold_left record_match ms acc !! d
  = match last (filter (fun m => day_of m = d) ms) with
    | Some m => Some (description_of m)
    | None => acc !! d
    end.
Proof.
  revert acc. induction ms as [|m ms IH]; intros acc; [done|].
  cbn [fold_left]. rewrite IH, record_match_lookup, filter_cons.
  case_decide as Hm; [|done].
  rewrite last_cons. by destruct (last _).
Qed.

End parse_loop.

(** The mapping holds, for every day number, the stripped third group of
    the last match with this day number, and nothing for a day number that
    no match has. *)
Lemma parse_readme_last_match `{U : UnicodeDecimal} (content : list N) (day_num : Z) :
  parse_readme (Some content) !! day_num
  = (fun m => strip (group m 3))
      <$> last (filter (fun m => int_of_digits (group m 2) = day_num)
                 (finditer pattern content)).
Proof.
  unfold parse_readme. rewrite fold_record_lookup, lookup_empty.
  unfold day_of, description_of. by destruct (last _).
Qed.

(** ** finditer *)

Section scan_facts.

Implicit Types (r : regex) (prev : option N) (x tail rest : list N).

Lemma match_at_start r c m : match_at r c = Some m -> m_start m = c_pos c.
Proof.
  unfold match_at. destruct (run _ _ _ _) as [[c' g]|]; [|done].
  by intros [= <-].
Qed.

Lemma scan_zero r prev pos rest :
  scan r 0 prev pos rest
  = match match_at r (Cursor prev pos rest) with
    | Some m =>
        m :: match rest with
             | x :: rest' => scan r (m_end m - pos - 1) (Some x) (S pos) rest'
             | [] => []
             end
    | None =>
        match rest with
        | x :: rest' => scan r 0 (Some x) (S pos) rest'
        | [] => []
        end
    end.
Proof. by destruct rest. Qed.

(** A match is found at or after the offset at which its search starts. *)
Lemma scan_start_ge r skip prev pos rest m :
  m ∈ scan r skip prev pos rest -> (pos + skip <= m_start m)%nat.
Proof.
  revert skip prev pos. induction rest as [|x rest IH]; intros skip prev pos Hm.
  - destruct skip as [|k]; cbn [scan] in Hm; [|by apply elem_of_nil in Hm].
    destruct (match_at _ _) as [m'|] eqn:E; [|by apply elem_of_nil in Hm].
    apply list_elem_of_singleton in Hm as ->.
    apply match_at_start in E. cbn in E. lia.
  - destruct skip as [|k]; cbn [scan] in Hm.
    + destruct (match_at _ _) as [m'|] eqn:E.
      * apply elem_of_cons in Hm as [->|Hm].
        -- apply match_at_start in E. cbn in E. lia.
        -- apply IH in Hm. lia.
      * apply IH in Hm. lia.
    + apply IH in Hm. lia.
Qed.

(** The search reaches a line at which the pattern matches, provided no
    earlier match runs over the start of the line: the match of the line is
    found, and every match after it starts at its end or later. *)
Lemma scan_to_line r x tail prev pos skip stop g :
  (forall m, m ∈ scan r skip prev pos (x ++ nl :: tail) ->
     (S (m_start m) < pos + S (length x))%nat ->
     (m_end m <= pos + S (length x))%nat) ->
  (skip <= S (length x))%nat ->
  (pos + S (length x) < stop)%nat ->
  (forall prev', match_at r (Cursor prev' (pos + length x) (nl :: tail))
                 = Some (Match (pos + length x) stop g)) ->
  match_at r (Cursor (Some nl) (S (pos + length x)) tail)
  = Some (Match (S (pos + length x)) stop g) ->
  exists ms start later,
    scan r skip prev pos (x ++ nl :: tail) = ms ++ Match start stop g :: later
    /\ (forall m, m ∈ ms -> (m_end m <= pos + S (length x))%nat)
    /\ (forall m, m ∈ later -> (stop <= m_start m)%nat).
Proof.
  revert prev pos skip. induction x as [|y x IH]; intros prev pos skip Hover Hskip Hstop Hnl Hbol.
  - cbn [app length] in *. rewrite Nat.add_0_r in *.
    destruct skip as [|[|k]]; [| |lia].
    + rewrite scan_zero, Hnl. cbn [m_end].
      exists [], pos, (scan r (stop - pos - 1) (Some nl) (S pos) tail).
      split; [done|]. split; [by intros m Hm%elem_of_nil|].
      intros m Hm. apply scan_start_ge in Hm. lia.
    + cbn [scan]. rewrite scan_zero, Hbol.
      cbn [m_end].
      eexists [], (S pos), _. split; [done|]. split; [by intros m Hm%elem_of_nil|].
      intros m Hm. destruct tail as [|t tail]; [by apply elem_of_nil in Hm|].
      apply scan_start_ge in Hm. lia.
  - cbn [app length] in *.
    assert (forall prev' skip',
              (skip' <= S (length x))%nat ->
              (forall m, m ∈ scan r skip' prev' (S pos) (x ++ nl :: tail) ->
                 (S (m_start m) < S pos + S (length x))%nat ->
                 (m_end m <= S pos + S (length x))%nat) ->
              exists ms start later,
                scan r skip' prev' (S pos) (x ++ nl :: tail)
                = ms ++ Match start stop g :: later
                /\ (forall m, m ∈ ms -> (m_end m <= pos + S (S (length x)))%nat)
                /\ (forall m, m ∈ later -> (stop <= m_start m)%nat)) as IH'.
    { intros prev' skip' Hs Ho.
      replace (pos + S (S (length x)))%nat with (S pos + S (length x))%nat by lia.
      apply IH; [done|done|lia| |].
      - intros prev''.
        replace (S pos + length x)%nat with (pos + S (length x))%nat by lia.
        apply Hnl.
      - replace (S pos + length x)%nat with (pos + S (length x))%nat by lia.
        apply Hbol. }
    destruct skip as [|k].
    + rewrite scan_zero.
      destruct (match_at r (Cursor prev pos (y :: x ++ nl :: tail))) as [m|] eqn:E.
      * pose proof (match_at_start _ _ _ E) as Hs. cbn [c_pos] in Hs.
        assert (m_end m <= pos + S (S (length x)))%nat as He.
        { apply Hover; [|lia]. rewrite scan_zero, E. by left. }
        destruct (IH' (Some y) (m_end m - pos - 1)%nat) as (ms & start & later & Hscan & Hms & Hlater).
        -- lia.
        -- intros m' Hm' Hlt. 
           assert (m_end m' <= pos + S (S (length x)))%nat; [|lia].
           apply Hover; [|lia]. rewrite scan_zero, E. by right.
        -- exists (m :: ms), start, later. rewrite Hscan. repeat split; [|done].
           intros m' [->|Hm']%elem_of_cons; [done|by apply Hms].
      * destruct (IH' (Some y) 0%nat) as (ms & start & later & Hscan & Hms & Hlater).
        -- lia.
        -- intros m' Hm' Hlt.
           assert (m_end m' <= pos + S (S (length x)))%nat; [|lia].
           apply Hover; [|lia]. by rewrite scan_zero, E.
        -- exists ms, start, later. by rewrite Hscan.
    + cbn [scan].
      destruct (IH' (Some y) k) as (ms & start & later & Hscan & Hms & Hlater).
      * lia.
      * intros m' Hm' Hlt.
        assert (m_end m' <= pos + S (S (length x)))%nat; [|lia].
        apply Hover; [|lia]. done.
      * exists ms, start, later. by rewrite Hscan.
Qed.

End scan_facts.

(** ** A day section in a document *)

Section day_section_in_document.

Context `{U : UnicodeDecimal} {L : DecimalLaws U}.

Implicit Types (prev : option N) (pre text rest post : list N).

Lemma after_start_needs_hash k prev pos rest (g : gmap nat (list N)) :
  run pattern_after_start k (Cursor prev pos (nl :: rest)) g = None.
Proof.
  unfold pattern_after_start, pattern. cbn [rcat foldr].
  rewrite run_seq, run_group. by cbn [run greedy c_prev c_pos c_rest].
Qed.

(** The match of a day section, tried at the start of its line. *)
Lemma match_at_section_bol hashes digits text next_hashes next_digits post prev pos :
  hashes ∈ [lit "#"; lit "##"] ->
  digits <> [] -> Forall (fun x => is_decimal x = true) digits ->
  (exists c, c ∈ text /\ is_space c = false) ->
  next_hashes ∈ [lit "#"; lit "##"] ->
  next_digits <> [] -> Forall (fun x => is_decimal x = true) next_digits ->
  let rest := nl :: next_hashes ++ lit " Day " ++ next_digits ++ post in
  no_header_inside text rest = true ->
  at_bol (Cursor prev pos (hashes ++ lit " Day " ++ digits ++ 58 :: text ++ rest)) = true ->
  match_at pattern (Cursor prev pos (hashes ++ lit " Day " ++ digits ++ 58 :: text ++ rest))
  = Some (Match pos (pos + length hashes + 5 + length digits + 1 + length text)
            (<[3%nat := lstrip text]> (<[2%nat := digits]> (<[1%nat := hashes]> ∅)))).
Proof.
  intros Hh Hne Hd Htext Hnh Hnne Hnd rest Hinside Hbol.
  destruct (section_matches hashes digits text next_hashes next_digits post prev pos)
    as (c' & Hrun & Hpos); try done.
  subst rest.
  unfold match_at. rewrite pattern_start, run_seq. cbn [run].
  rewrite Hbol, Hrun. cbn [c_pos]. by rewrite Hpos.
Qed.

(** The match of a day section, tried at the newline before its line. *)
Lemma match_at_section_nl hashes digits text next_hashes next_digits post prev pos :
  hashes ∈ [lit "#"; lit "##"] ->
  digits <> [] -> Forall (fun x => is_decimal x = true) digits ->
  (exists c, c ∈ text /\ is_space c = false) ->
  next_hashes ∈ [lit "#"; lit "##"] ->
  next_digits <> [] -> Forall (fun x => is_decimal x = true) next_digits ->
  let rest := nl :: next_hashes ++ lit " Day " ++ next_digits ++ post in
  no_header_inside text rest = true ->
  match_at pattern
    (Cursor prev pos (nl :: hashes ++ lit " Day " ++ digits ++ 58 :: text ++ rest))
  = Some (Match pos (S pos + length hashes + 5 + length digits + 1 + length text)
            (<[3%nat := lstrip text]> (<[2%nat := digits]> (<[1%nat := hashes]> ∅)))).
Proof.
  intros Hh Hne Hd Htext Hnh Hnne Hnd rest Hinside.
  destruct (section_matches hashes digits text next_hashes next_digits post (Some nl) (S pos))
    as (c' & Hrun & Hpos); try done.
  subst rest.
  unfold match_at. rewrite pattern_start, run_seq. cbn [run].
  rewrite after_start_needs_hash. cbn [c_rest c_pos].
  assert ((if at_bol (Cursor prev pos
                 (nl :: hashes ++ lit " Day " ++ digits ++ 58 :: text
                    ++ nl :: next_hashes ++ lit " Day " ++ next_digits ++ post))
           then None else None)
          = (None : option (cursor * gmap nat (list N)))) as -> by by destruct (at_bol _).
  rewrite N.eqb_refl, Hrun. cbn [c_pos]. by rewrite Hpos.
Qed.

Lemma lstrip_idemp text : lstrip (lstrip text) = lstrip text.
Proof.
  unfold lstrip. induction text as [|c text IH]; [done|].
  cbn [dropwhile]. destruct (is_space c) eqn:E; [done|].
  cbn [dropwhile]. by rewrite E.
Qed.

Lemma strip_lstrip text : strip (lstrip text) = strip text.
Proof. unfold strip. by rewrite lstrip_idemp. Qed.

Lemma last_nl_split pre : last pre = Some nl -> exists x, pre = x ++ [nl].
Proof.
  intros H. destruct pre as [|c pre _] using rev_ind; [done|].
  rewrite last_snoc in H. injection H as ->. by exists pre.
Qed.

(** The matches of a document around a day section. *)
Lemma finditer_section pre hashes digits text next_hashes next_digits post :
  let rest := nl :: next_hashes ++ lit " Day " ++ next_digits ++ post in
  let doc := pre ++ hashes ++ lit " Day " ++ digits ++ lit ":" ++ text ++ rest in
  (pre = [] \/ last pre = Some nl) ->
  hashes ∈ [lit "#"; lit "##"] ->
  digits <> [] -> Forall (fun c => is_decimal c = true) digits ->
  next_hashes ∈ [lit "#"; lit "##"] ->
  next_digits <> [] -> Forall (fun c => is_decimal c = true) next_digits ->
  (exists c, c ∈ text /\ is_space c = false) ->
  no_header_inside text rest = true ->
  line_reached doc (length pre) = true ->
  exists ms start later,
    finditer pattern doc
    = ms ++ Match start (length pre + length hashes + 5 + length digits + 1 + length text)
              (<[3%nat := lstrip text]> (<[2%nat := digits]> (<[1%nat := hashes]> ∅)))
         :: later
    /\ (forall m, m ∈ ms -> (m_end m <= length pre)%nat)
    /\ (forall m, m ∈ later ->
          (length pre + length hashes + 5 + length digits + 1 + length text <= m_start m)%nat).
Proof.
  intros rest doc Hpre Hh Hne Hd Hnh Hnne Hnd Htext Hinside Hreach.
  set (g := <[3%nat := lstrip text]> (<[2%nat := digits]> (<[1%nat := hashes]> ∅))).
  subst doc rest.
  change (lit ":" ++ text ++ ?r) with (58 :: text ++ r) in *.
  set (doc := pre ++ _) in *.
  assert (doc = pre ++ hashes ++ lit " Day " ++ digits ++ 58 :: text
                  ++ nl :: next_hashes ++ lit " Day " ++ next_digits ++ post) as Hdoc by done.
  clearbody doc.
  unfold finditer. destruct Hpre as [->|Hpre].
  - cbn [app length] in *. rewrite scan_zero, Hdoc.
    rewrite match_at_section_bol by done. fold g. cbn [m_end].
    eexists [], _, _. split; [done|]. split; [by intros m Hm%elem_of_nil|].
    intros m Hm. destruct (hashes ++ _) as [|h s] eqn:Es; [by apply elem_of_nil in Hm|].
    apply scan_start_ge in Hm. destruct (hashes_run _ Hh) as [_ ?]. lia.
  - destruct (last_nl_split _ Hpre) as [x Hx].
    assert (length pre = S (length x)) as Hlen
      by (rewrite Hx, length_app; cbn; lia).
    assert (doc = x ++ nl :: hashes ++ lit " Day " ++ digits ++ 58 :: text
                    ++ nl :: next_hashes ++ lit " Day " ++ next_digits ++ post) as Hdoc'
      by (by rewrite Hdoc, Hx, <- app_assoc).
    destruct (scan_to_line pattern x
                (hashes ++ lit " Day " ++ digits ++ 58 :: text
                   ++ nl :: next_hashes ++ lit " Day " ++ next_digits ++ post) None 0 0
                (S (length x) + length hashes + 5 + length digits + 1 + length text) g)
      as (ms & start & later & Hscan & Hms & Hlater).
    + intros m Hm Hlt. rewrite <- Hdoc' in Hm.
      unfold line_reached in Hreach. rewrite forallb_forall in Hreach.
      apply list_elem_of_In, Hreach in Hm. rewrite Hlen in Hm.
      cbn [Nat.add] in Hlt |- *.
      apply Nat.ltb_lt in Hlt. rewrite Hlt in Hm. by apply Nat.leb_le in Hm.
    + lia.
    + lia.
    + intros prev'. cbn [Nat.add]. by apply match_at_section_nl.
    + cbn [Nat.add]. rewrite match_at_section_bol by done. done.
    + rewrite Hdoc', Hscan, Hlen. exists ms, start, later. split; [done|].
      split; [intros m Hm; apply Hms in Hm; lia|].
      intros m Hm. apply Hlater in Hm. lia.
Qed.

(** When the line of a day section is reached, so is the line of the header
    after it: well-formed sections in a row are found one after the other. *)
Lemma next_line_reached pre hashes digits text next_hashes next_digits post :
  let rest := nl :: next_hashes ++ lit " Day " ++ next_digits ++ post in
  let doc := pre ++ hashes ++ lit " Day " ++ digits ++ lit ":" ++ text ++ rest in
  (pre = [] \/ last pre = Some nl) ->
  hashes ∈ [lit "#"; lit "##"] ->
  digits <> [] -> Forall (fun c => is_decimal c = true) digits ->
  next_hashes ∈ [lit "#"; lit "##"] ->
  next_digits <> [] -> Forall (fun c => is_decimal c = true) next_digits ->
  (exists c, c ∈ text /\ is_space c = false) ->
  no_header_inside text rest = true ->
  line_reached doc (length pre) = true ->
  line_reached doc
    (length (pre ++ hashes ++ lit " Day " ++ digits ++ lit ":" ++ text ++ [nl])) = true.
Proof.
  intros rest doc Hpre Hh Hne Hd Hnh Hnne Hnd Htext Hinside Hreach.
  destruct (finditer_section pre hashes digits text next_hashes next_digits post)
    as (ms & start & later & Hfind & Hms & Hafter); try done.
  fold rest doc in Hfind.
  unfold line_reached. rewrite Hfind. apply forallb_forall.
  intros m Hm. apply list_elem_of_In in Hm.
  rewrite !length_app. cbn [length].
  change (length (lit " Day ")) with 5%nat. change (length (lit ":")) with 1%nat.
  apply elem_of_app in Hm as [Hm|Hm]; [|apply elem_of_cons in Hm as [->|Hm]].
  - apply Hms in Hm.
    replace (m_end m <=? _)%nat with true by (symmetry; apply Nat.leb_le; lia).
    apply implb_true_r.
  - cbn [m_end].
    replace (_ <=? _)%nat with true by (symmetry; apply Nat.leb_le; lia).
    apply implb_true_r.
  - apply Hafter in Hm.
    by replace (S (m_start m) <? _)%nat with false by (symmetry; apply Nat.ltb_ge; lia).
Qed.

End day_section_in_document.

(** At the start of a document there is no earlier match. *)
Lemma line_reached_start `{U : UnicodeDecimal} (doc : list N) :
  line_reached doc 0 = true.
Proof. unfold line_reached. by apply forallb_forall. Qed.

(** C1 (amended).  Let a document hold, at the start of a line, a header of
    one or two [#], [ Day ], digits and a colon, then a text with a character
    that is not white space and without the start of a day section inside,
    then a newline and the next header.  If no match that starts before the
    line of the header runs over its start, and no match that starts after
    it has the same day number, the mapping holds the stripped text for the
    day number of the header. *)
Theorem day_section_extracted `{U : UnicodeDecimal} {L : DecimalLaws U}
    (pre hashes digits text next_hashes next_digits post : list N) :
  let rest := nl :: next_hashes ++ lit " Day " ++ next_digits ++ post in
  let doc := pre ++ hashes ++ lit " Day " ++ digits ++ lit ":" ++ text ++ rest in
  (pre = [] \/ last pre = Some nl) ->
  hashes ∈ [lit "#"; lit "##"] ->
  digits <> [] -> Forall (fun c => is_decimal c = true) digits ->
  next_hashes ∈ [lit "#"; lit "##"] ->
  next_digits <> [] -> Forall (fun c => is_decimal c = true) next_digits ->
  (exists c, c ∈ text /\ is_space c = false) ->
  no_header_inside text rest = true ->
  line_reached doc (length pre) = true ->
  no_later_match doc (length pre) (int_of_digits digits) = true ->
  parse_readme (Some doc) !! int_of_digits digits = Some (strip text).
Proof.
  intros rest doc Hpre Hh Hne Hd Hnh Hnne Hnd Htext Hinside Hreach Hlater.
  destruct (finditer_section pre hashes digits text next_hashes next_digits post)
    as (ms & start & later & Hfind & _ & Hafter); try done.
  fold rest doc in Hfind.
  unfold parse_readme. rewrite fold_record_lookup, Hfind.
  rewrite filter_app, filter_cons.
  set (m := Match start _ _) in *.
  assert (day_of m = int_of_digits digits) as Hday by done.
  assert (description_of m = strip text) as Hdesc.
  { unfold description_of, group, m. cbn [m_groups].
    rewrite lookup_insert_eq. cbn [default]. apply strip_lstrip. }
  assert (filter (fun m' => day_of m' = int_of_digits digits) later = []) as ->.
  { assert (forall m', m' ∈ later -> day_of m' <> int_of_digits digits) as Hno.
    { intros m' Hm'.
      assert (length pre < m_start m')%nat as Hlt by (apply Hafter in Hm'; lia).
      unfold no_later_match in Hlater. rewrite forallb_forall in Hlater.
      specialize (Hlater m'). rewrite Hfind in Hlater.
      assert (In m' (ms ++ m :: later)) as Hin
        by (apply list_elem_of_In, elem_of_app; right; by right).
      apply Hlater in Hin. apply Nat.ltb_lt in Hlt. rewrite Hlt in Hin.
      by apply negb_true_iff, Z.eqb_neq in Hin. }
    clear -Hno. induction later as [|m' later IH]; [done|].
    rewrite filter_cons, decide_False by (apply Hno; by left).
    apply IH. intros m'' ?. apply Hno. by right. }
  rewrite decide_True by done. rewrite last_snoc. by rewrite Hdesc.
Qed.

(** ** The table of the ASCII digits, and the definitions run on documents *)

Lemma ascii_decimal_laws : DecimalLaws ascii_decimal.
Proof.
  split; cbn [is_decimal decimal_value ascii_decimal].
  - done.
  - done.
  - intros c Hc. apply andb_true_iff in Hc as [H1 H2].
    apply N.leb_le in H1, H2.
    assert (c = 48 \/ c = 49 \/ c = 50 \/ c = 51 \/ c = 52 \/ c = 53 \/ c = 54
            \/ c = 55 \/ c = 56 \/ c = 57) as Hcases by lia.
    repeat (destruct Hcases as [->|Hcases]; [done|]). by subst.
Qed.

(** The example of the specification: two day sections, the title after the
    colon being part of the description. *)
Example parse_readme_two_days :
  parse_readme (U := ascii_decimal) (Some (lit "## Day 1: Intro
Hello world
## Day 2
More text
"))
  = {[ 1%Z := lit "Intro
Hello world"; 2%Z := lit "More text" ]}.
Proof. by vm_compute. Qed.

Example parse_readme_missing_file : parse_readme (U := ascii_decimal) None = ∅.
Proof. done. Qed.

Example card_preview_two_lines :
  card_preview (lit "Intro
Hello world") = lit "Intro".
Proof. by vm_compute. Qed.

(** A day number with two headers keeps the text of the later one. *)
Example parse_readme_repeated_header :
  parse_readme (U := ascii_decimal) (Some (lit "## Day 7: first
## Day 8: x
## Day 7: second"))
  = {[ 7%Z := lit "second"; 8%Z := lit "x" ]}.
Proof. by vm_compute. Qed.

(** A header that follows a section without text is not found: the newline
    that would end the description of day 5 is taken by its header, and the
    description runs to the next header but one. *)
Example parse_readme_after_empty_section :
  parse_readme (U := ascii_decimal) (Some (lit "## Day 5
## Day 7: text
## Day 8"))
  = {[ 5%Z := lit "## Day 7: text" ]}.
Proof. by vm_compute. Qed.

(** A header whose text is blank takes the next header into its description. *)
Example parse_readme_blank_text :
  parse_readme (U := ascii_decimal) (Some (lit "## Day 7:
## Day 8
foo"))
  = {[ 7%Z := lit "## Day 8
foo" ]}.
Proof. by vm_compute. Qed.

Example get_language_examples :
  get_language (lit "kernel.cu") = lit "cuda"
  /\ get_language (lit "include/util.cuh") = lit "cuda"
  /\ get_language (lit "main.cpp") = lit "cpp"
  /\ get_language (lit "main.c") = lit "c"
  /\ get_language (lit "util.h") = lit "c"
  /\ get_language (lit "run.py") = lit "python"
  /\ get_language (lit "README.md") = lit "markdown"
  /\ get_language (lit "kernel.CU") = lit "clike"
  /\ get_language (lit "Makefile") = lit "clike"
  /\ get_language (lit ".cu") = lit "clike"
  /\ get_language (lit "notes.txt") = lit "clike".
Proof. by vm_compute. Qed.

(** A file [kernel.cu] with the content [a & b]. *)
Example file_section_kernel :
  file_section (lit "kernel.cu") (lit "a & b")
  = file_html_open ++ lit "kernel.cu</h3>
        <pre><code class=" ++ dq ++ lit "language-cuda" ++ dq
      ++ lit ">a &amp; b</code></pre>
    </div>
".
Proof. by vm_compute. Qed.

Example nav_bar_day_1 :
  prev_link 1 = [] /\ next_link 1 = next_anchor 1
  /\ next_anchor 1
     = lit "<a href=" ++ dq ++ lit "day-2.html" ++ dq ++ lit ">Day 2 " ++ [8594] ++ lit "</a>".
Proof. by vm_compute. Qed.

Example nav_bar_day_100 :
  next_link 100 = [] /\ prev_link 100 = prev_anchor 100
  /\ prev_anchor 100
     = lit "<a href=" ++ dq ++ lit "day-99.html" ++ dq ++ lit ">" ++ [8592] ++ lit " Day 99</a>".
Proof. by vm_compute. Qed.

(** ** Concrete documents and pages *)

(** The section of day 7 in a document with a title and a section before it. *)
Lemma day_section_extracted_witness :
  parse_readme (U := ascii_decimal)
    (Some (lit "# Log
## Day 6: a
" ++ lit "##" ++ lit " Day " ++ lit "7" ++ lit ":" ++ lit " text...
  more " ++ nl :: lit "##" ++ lit " Day " ++ lit "8" ++ lit ": x
")) !! int_of_digits (U := ascii_decimal) (lit "7")
  = Some (strip (lit " text...
  more ")).
Proof.
  apply (day_section_extracted (U := ascii_decimal) (L := ascii_decimal_laws)).
  - right. reflexivity.
  - right. left.
  - discriminate.
  - repeat constructor.
  - right. left.
  - discriminate.
  - repeat constructor.
  - exists 116. split; [|reflexivity]. right. left.
  - vm_compute. reflexivity.
  - vm_compute. reflexivity.
  - vm_compute. reflexivity.
Defined.

(** C4.  The later of two headers of a day is not always the one that
    counts.  In the first document the second header of day 7 is found and
    its text replaces the first.  In the second document it follows the
    header of day 5, which has no text: the newline before it is taken by
    the end of that header, the second header of day 7 is not found as a
    header and becomes the description of day 5, and day 7 keeps the text
    of its first header. *)
Theorem repeated_header_after_empty_section :
  parse_readme (U := ascii_decimal) (Some (lit "## Day 7: first
## Day 8: x
## Day 7: second"))
  = {[ 7%Z := lit "second"; 8%Z := lit "x" ]}
  /\ parse_readme (U := ascii_decimal) (Some (lit "## Day 7: first
## Day 5
## Day 7: second
## Day 8: x"))
     = {[ 7%Z := lit "first"; 5%Z := lit "## Day 7: second"; 8%Z := lit "x" ]}
  /\ (fun m => (m_start m, m_end m, group m 2))
       <$> finditer (pattern (U := ascii_decimal)) (lit "## Day 7: first
## Day 5
## Day 7: second
## Day 8: x")
     = [(0, 15, lit "7"); (15, 41, lit "5"); (41, 53, lit "8")]%nat.
Proof. by vm_compute. Qed.

(** C1 does not hold of every document: a later header for day 7 overwrites
    the text of the section of day 7 that is followed by the header of
    day 8. *)
Lemma later_header_overwrites_section :
  ~ (forall pre text post : list N,
       (pre = [] \/ last pre = Some nl) ->
       (exists c, c ∈ text /\ is_space c = false) ->
       no_header_inside (U := ascii_decimal) text (nl :: lit "## Day 8" ++ post) = true ->
       parse_readme (U := ascii_decimal)
         (Some (pre ++ lit "## Day 7:" ++ text ++ nl :: lit "## Day 8" ++ post)) !! 7%Z
       = Some (strip text)).
Proof.
  intros H.
  specialize (H [] (lit " first") (lit ": x
## Day 7: second")).
  assert (parse_readme (U := ascii_decimal)
            (Some ([] ++ lit "## Day 7:" ++ lit " first" ++ nl :: lit "## Day 8"
                     ++ lit ": x
## Day 7: second")) !! 7%Z
          = Some (lit "second")) as Hrun by (by vm_compute).
  rewrite H in Hrun.
  - by vm_compute in Hrun.
  - by left.
  - exists 102. split; [|reflexivity]. right. left.
  - by vm_compute.
Qed.

(** Two files, the first with the characters [<], [>] and [&] in its path. *)
Lemma file_path_verbatim_witness :
  (exists before after,
     generate_day_page 3 [] [(lit "a<b>&.cu", lit "x < y"); (lit "n.py", [])]
     = before
         ++ (file_html_open ++ lit "a<b>&.cu" ++ file_html_code
               ++ get_language (lit "a<b>&.cu")
               ++ file_html_content ++ escape (lit "x < y") ++ file_html_close)
         ++ after)
  /\ endswith (lit "<h3>") file_html_open = true
  /\ startswith (lit "</h3>") file_html_code = true.
Proof.
  apply (file_path_verbatim 3 [] [(lit "a<b>&.cu", lit "x < y"); (lit "n.py", [])] 0).
  reflexivity.
Defined.

(** * Further properties *)

(** A character that differs from every element of an explicit list. *)
Ltac not_in_list :=
  let H := fresh in
  intros H; repeat (apply elem_of_cons in H as [H|H]; [discriminate H|]);
  by apply elem_of_nil in H.

(** ** escape *)

Lemma escape_app_bind a b : escape (a ++ b) = escape a ++ escape b.
Proof. by rewrite !escape_bind, bind_app. Qed.

(** X1.  Escaping works character by character: the escaped form of two
    texts put together is the two escaped forms put together. *)
Theorem escape_app (a b : list N) : escape (a ++ b) = escape a ++ escape b.
Proof. apply escape_app_bind. Qed.

(** X2.  Different contents have different escaped forms. *)
Theorem escape_injective (a b : list N) : escape a = escape b -> a = b.
Proof.
  intros H. rewrite <- (unescape_escape a), <- (unescape_escape b). by rewrite H.
Qed.

Lemma escape_injective_witness : lit "a<b" = lit "a<b".
Proof. apply (escape_injective (lit "a<b") (lit "a<b")). reflexivity. Defined.

Lemma length_escape_char c :
  length (escape_char c)
  = (1 + (if (c =? 38)%N then 4 else 0) + (if (c =? 60)%N then 3 else 0)
       + (if (c =? 62)%N then 3 else 0))%nat.
Proof.
  destruct (escape_char_cases c) as [[-> ->]|[[-> ->]|[[-> ->]|(H1 & H2 & H3 & ->)]]];
    try done.
  apply N.eqb_neq in H1, H2, H3. by rewrite H1, H2, H3.
Qed.

Lemma count_char_cons c x s :
  count_char c (x :: s) = ((if (x =? c)%N then 1 else 0) + count_char c s)%nat.
Proof.
  unfold count_char. rewrite filter_cons.
  destruct (N.eqb_spec x c); [by rewrite decide_True|by rewrite decide_False].
Qed.

(** X3.  The escaped form is longer than the content by four characters for
    every [&] and three for every [<] and every [>]; in particular it is
    never shorter. *)
Theorem length_escape (content : list N) :
  length (escape content)
  = (length content + 4 * count_char 38 content
       + 3 * count_char 60 content + 3 * count_char 62 content)%nat.
Proof.
  induction content as [|c s IH]; [done|].
  rewrite escape_cons, length_app, IH, length_escape_char, !count_char_cons.
  cbn [length]. destruct (c =? 38), (c =? 60), (c =? 62); lia.
Qed.

(** X4.  A content without [&], [<] and [>] is its own escaped form. *)
Theorem escape_plain (content : list N) :
  38 ∉ content -> 60 ∉ content -> 62 ∉ content -> escape content = content.
Proof.
  induction content as [|c s IH]; [done|]. intros H1 H2 H3.
  apply not_elem_of_cons in H1 as [? ?], H2 as [? ?], H3 as [? ?].
  rewrite escape_cons, IH by done.
  destruct (escape_char_cases c) as [[-> _]|[[-> _]|[[-> _]|(_ & _ & _ & ->)]]]; done.
Qed.

Lemma escape_plain_witness : escape (lit "int main()") = lit "int main()".
Proof. apply escape_plain; eval_lits; not_in_list. Defined.

(** ** str and int *)

Section str_int.

Context `{U : UnicodeDecimal} {L : DecimalLaws U}.

Lemma fold_digits_acc u (acc : positive) :
  fold_left (fun a d => (10 * a + decimal_value d)%Z) (uint_digits u) (Zpos acc)
  = Zpos (Pos.of_uint_acc u acc).
Proof.
  revert acc. induction u; intros acc; cbn [uint_digits fold_left Pos.of_uint_acc];
    [done|..]; rewrite decimal_value_ascii by lia;
    match goal with
    | |- fold_left _ _ ?z = _ =>
        match goal with
        | |- _ = Zpos (Pos.of_uint_acc _ ?p) =>
            replace z with (Zpos p) by lia
        end
    end; apply IHu.
Qed.

Lemma fold_digits u :
  fold_left (fun a d => (10 * a + decimal_value d)%Z) (uint_digits u) 0%Z
  = Z.of_N (Pos.of_uint u).
Proof.
  induction u; cbn [uint_digits fold_left Pos.of_uint]; [done|..];
    rewrite decimal_value_ascii by lia;
    try (match goal with
         | |- fold_left _ _ ?z = Z.of_N (Npos (Pos.of_uint_acc _ ?p)) =>
             replace z with (Zpos p) by lia
         end; apply fold_digits_acc).
  exact IHu.
Qed.

Lemma int_of_str_of_pos p : int_of_digits (uint_digits (Pos.to_uint p)) = Zpos p.
Proof.
  unfold int_of_digits. rewrite fold_digits, DecimalPos.Unsigned.of_to. done.
Qed.

Lemma int_of_digits_str_of_int n : (0 <= n)%Z -> int_of_digits (str_of_int n) = n.
Proof.
  intros Hn. destruct n as [|p|p]; [|apply int_of_str_of_pos|lia].
  unfold int_of_digits. cbn [str_of_int fold_left]. rewrite decimal_value_ascii by lia. done.
Qed.

(** X5.  Reading back the decimal form of a number that is not negative
    gives the number: a header written with the number of a day is filed
    under that day. *)
Theorem int_of_str_of_int (n : Z) : (0 <= n)%Z -> int_of_digits (str_of_int n) = n.
Proof. apply int_of_digits_str_of_int. Qed.

End str_int.

Lemma int_of_str_of_int_witness :
  int_of_digits (U := ascii_decimal) (str_of_int 42) = 42%Z.
Proof.
  apply (int_of_str_of_int (U := ascii_decimal) (L := ascii_decimal_laws)). lia.
Defined.

Lemma uint_digits_inj u v : uint_digits u = uint_digits v -> u = v.
Proof.
  revert v. induction u; destruct v; cbn [uint_digits]; intros H;
    try discriminate H; try done;
    injection H as H; f_equal; by apply IHu.
Qed.

Lemma uint_digits_head u c s : uint_digits u = c :: s -> 48 <= c <= 57.
Proof. intros H. apply (uint_digits_chars u). rewrite H. by left. Qed.

Lemma str_of_int_injective a b : str_of_int a = str_of_int b -> a = b.
Proof.
  destruct a as [|p|p], b as [|q|q]; cbn [str_of_int]; intros H; try done.
  - exfalso. apply (DecimalPos.Unsigned.to_uint_nonzero q).
    by apply uint_digits_inj.
  - exfalso. apply (DecimalPos.Unsigned.to_uint_nonzero p).
    by apply uint_digits_inj.
  - apply uint_digits_inj, DecimalPos.Unsigned.to_uint_inj in H. by subst.
  - apply uint_digits_head in H. lia.
  - symmetry in H. apply uint_digits_head in H. lia.
  - injection H as H.
    apply uint_digits_inj, DecimalPos.Unsigned.to_uint_inj in H. by subst.
Qed.

(** ** strip *)

Section strip_facts.

Implicit Types (p : N -> bool) (s t : list N).

Lemma dropwhile_head p s x t : dropwhile p s = x :: t -> p x = false.
Proof.
  induction s as [|c s IH]; [done|]. cbn [dropwhile].
  destruct (p c) eqn:E; [done|]. by intros [= <- _].
Qed.

Lemma dropwhile_fixed p x t : p x = false -> dropwhile p (x :: t) = x :: t.
Proof. intros H. cbn [dropwhile]. by rewrite H. Qed.

Lemma dropwhile_idemp p s : dropwhile p (dropwhile p s) = dropwhile p s.
Proof.
  destruct (dropwhile p s) as [|x t] eqn:E; [done|].
  apply dropwhile_fixed. by eapply dropwhile_head.
Qed.

Lemma dropwhile_snoc p s x :
  p x = false -> dropwhile p (s ++ [x]) = dropwhile p s ++ [x].
Proof.
  intros H. induction s as [|c s IH]; cbn [app dropwhile].
  - by rewrite H.
  - by destruct (p c).
Qed.

Lemma rstrip_cons x t : is_space x = false -> rstrip (x :: t) = x :: rstrip t.
Proof.
  intros H. unfold rstrip. cbn [rev].
  rewrite dropwhile_snoc by done. by rewrite rev_app_distr.
Qed.

Lemma rstrip_idemp s : rstrip (rstrip s) = rstrip s.
Proof. unfold rstrip. by rewrite rev_involutive, dropwhile_idemp. Qed.

(** A stripped text is empty or starts with a character that is not white
    space, after which only the end has been cut. *)
Lemma strip_cases s :
  strip s = []
  \/ exists x t, lstrip s = x :: t /\ is_space x = false /\ strip s = x :: rstrip t.
Proof.
  unfold strip. destruct (lstrip s) as [|x t] eqn:E; [by left|right].
  assert (is_space x = false) by (by eapply dropwhile_head).
  exists x, t. by rewrite rstrip_cons.
Qed.

Lemma strip_idemp s : strip (strip s) = strip s.
Proof.
  destruct (strip_cases s) as [->|(x & t & _ & Hx & ->)]; [done|].
  unfold strip, lstrip. rewrite dropwhile_fixed by done.
  by rewrite rstrip_cons, rstrip_idemp.
Qed.

Lemma strip_head s x : head (strip s) = Some x -> is_space x = false.
Proof.
  destruct (strip_cases s) as [->|(y & t & _ & Hy & ->)]; [done|].
  by intros [= <-].
Qed.

Lemma rstrip_last s x : last (rstrip s) = Some x -> is_space x = false.
Proof.
  unfold rstrip. destruct (dropwhile is_space (rev s)) as [|y t] eqn:E; [done|].
  cbn [rev]. rewrite last_snoc. intros [= <-]. by eapply dropwhile_head.
Qed.

Lemma strip_last s x : last (strip s) = Some x -> is_space x = false.
Proof. apply rstrip_last. Qed.

End strip_facts.

(** X6.  Every description of the mapping is stripped: it neither starts nor
    ends with white space, and stripping it again changes nothing. *)
Theorem descriptions_stripped `{U : UnicodeDecimal} (readme : option (list N))
    (day_num : Z) (description : list N) :
  parse_readme readme !! day_num = Some description ->
  strip description = description
  /\ (forall c, head description = Some c -> is_space c = false)
  /\ (forall c, last description = Some c -> is_space c = false).
Proof.
  destruct readme as [content|]; [|done].
  unfold parse_readme. rewrite fold_record_lookup, lookup_empty.
  destruct (last _) as [m|]; [|done]. intros [= <-]. unfold description_of.
  split; [apply strip_idemp|]. split; [apply strip_head|apply strip_last].
Qed.

Lemma descriptions_stripped_witness :
  strip (lit "Intro") = lit "Intro"
  /\ (forall c, head (lit "Intro") = Some c -> is_space c = false)
  /\ (forall c, last (lit "Intro") = Some c -> is_space c = false).
Proof.
  apply (descriptions_stripped (U := ascii_decimal)
           (Some (lit "# Day 3:  Intro  ")) 3).
  vm_compute. reflexivity.
Defined.

(** ** The preview of a card *)

Lemma split_on_pieces sep s piece : piece ∈ split_on sep s -> sep ∉ piece.
Proof.
  revert piece. induction s as [|c s IH]; intros piece; cbn [split_on].
  - intros ->%list_elem_of_singleton. apply not_elem_of_nil.
  - destruct (N.eqb_spec c sep) as [->|Hc].
    + intros [->|H]%elem_of_cons; [apply not_elem_of_nil|by apply IH].
    + destruct (split_on sep s) as [|p ps] eqn:E.
      * intros ->%list_elem_of_singleton. by intros ->%list_elem_of_singleton.
      * intros [->|H]%elem_of_cons.
        -- intros [->|H]%elem_of_cons; [done|]. revert H. apply IH. by left.
        -- apply IH. by right.
Qed.

Lemma dropwhile_subset p s c : c ∈ dropwhile p s -> c ∈ s.
Proof.
  induction s as [|x s IH]; [done|]. cbn [dropwhile].
  destruct (p x); [|done]. intros H. right. by apply IH.
Qed.

Lemma strip_subset s c : c ∈ strip s -> c ∈ s.
Proof.
  unfold strip, rstrip, lstrip. intros H.
  apply list_elem_of_In, in_rev, list_elem_of_In, dropwhile_subset in H.
  apply list_elem_of_In, in_rev, list_elem_of_In in H.
  by apply dropwhile_subset in H.
Qed.

(** X7.  The preview of a card is never empty, is one line, and has at most
    153 characters: 150 of the description and the three dots. *)
Theorem card_preview_bounds (desc : list N) :
  (card_preview desc <> [])
  /\ (nl ∉ card_preview desc)
  /\ (length (card_preview desc) <= 153)%nat.
Proof.
  rewrite card_preview_spec. unfold spec_preview.
  destruct (List.find _ _) as [line|] eqn:Hfind.
  - apply find_some in Hfind as [Hin Hline].
    apply preview_line_nonempty in Hline.
    assert (nl ∉ line) as Hnl.
    { apply list_elem_of_In, list_elem_of_fmap in Hin as (piece & -> & Hpiece).
      intros H%strip_subset. by apply (split_on_pieces nl desc piece). }
    unfold truncate150. destruct (Nat.ltb_spec 150 (length line)) as [Hlen|Hlen].
    + split; [by destruct line|]. split.
      * intros [H|H]%elem_of_app.
        -- by apply Hnl, (subseteq_take 150 line).
        -- revert H. eval_lits. not_in_list.
      * rewrite length_app, length_take.
        change (length (lit "...")) with 3%nat. lia.
    + split; [done|]. split; [done|lia].
  - split; [done|]. split; [eval_lits; not_in_list|]. cbn. lia.
Qed.

(** X8.  Only the entries of the days 1 to 100 show on the index page: an
    entry for any other day number changes nothing. *)
Theorem index_page_ignores_other_days (day_descriptions : gmap Z (list N))
    (day_num : Z) (description : list N) :
  (day_num < 1 \/ 100 < day_num)%Z ->
  generate_index_page (<[day_num := description]> day_descriptions)
  = generate_index_page day_descriptions.
Proof.
  intros Hout. unfold generate_index_page. rewrite !day_cards_concat.
  do 3 f_equal. unfold index_cards. apply list_fmap_ext.
  intros i n Hn. apply lookup_seqZ in Hn as [-> Hi].
  unfold get_description. rewrite lookup_insert_ne by lia. done.
Qed.

Lemma index_page_ignores_other_days_witness :
  generate_index_page (<[101%Z := lit "later"]> ∅) = generate_index_page ∅.
Proof. apply index_page_ignores_other_days. lia. Defined.

(** ** The shape of a match *)

Section shape_facts.

Implicit Types (p : N -> bool) (prev : option N) (rest : list N).

Lemma greedy_shape p lo hi k n prev pos rest res :
  greedy p lo hi k n prev pos rest = Some res ->
  exists run rest' prev',
    rest = run ++ rest'
    /\ Forall (fun x => p x = true) run
    /\ (lo <= n + length run)%nat
    /\ match hi with Some h => (n <= h -> n + length run <= h)%nat | None => True end
    /\ k (Cursor prev' (pos + length run) rest') = Some res.
Proof.
  revert n prev pos. induction rest as [|x rest IH]; intros n prev pos; cbn [greedy].
  - destruct (Nat.leb_spec lo n); [|done]. intros Hk.
    exists [], [], prev. cbn [length app]. rewrite !Nat.add_0_r.
    repeat split; [done|lia|by destruct hi|done].
  - assert ((if (lo <=? n)%nat then k (Cursor prev pos (x :: rest)) else None) = Some res ->
            exists run rest' prev',
              x :: rest = run ++ rest'
              /\ Forall (fun x => p x = true) run
              /\ (lo <= n + length run)%nat
              /\ match hi with Some h => (n <= h -> n + length run <= h)%nat | None => True end
              /\ k (Cursor prev' (pos + length run) rest') = Some res) as Hstop.
    { destruct (Nat.leb_spec lo n); [|done]. intros Hk.
      exists [], (x :: rest), prev. cbn [length app]. rewrite !Nat.add_0_r.
      repeat split; [done|lia|by destruct hi|done]. }
    destruct (p x && below n hi) eqn:Hx; [|done].
    apply andb_true_iff in Hx as [Hpx Hbelow].
    destruct (greedy p lo hi k (S n) (Some x) (S pos) rest) as [res'|] eqn:E; [|done].
    intros [= ->]. destruct (IH _ _ _ E) as (run & rest' & prev' & -> & Hrun & Hlo & Hhi & Hk).
    exists (x :: run), rest', prev'. cbn [length app]. rewrite !Nat.add_succ_r.
    repeat split; [by constructor|done| |done].
    destruct hi as [h|]; [|done]. cbn [below] in Hbelow. apply Nat.ltb_lt in Hbelow.
    intros _. cbn [Nat.add] in Hhi. lia.
Qed.

Lemma lazy_shape p lo hi k n prev pos rest res :
  lazy p lo hi k n prev pos rest = Some res ->
  exists run rest',
    rest = run ++ rest'
    /\ Forall (fun x => p x = true) run
    /\ k (Cursor (prev_after prev run) (pos + length run) rest') = Some res
    /\ (forall i, (i < length run)%nat -> (lo <= n + i)%nat ->
          k (Cursor (prev_after prev (take i run)) (pos + i) (drop i run ++ rest')) = None).
Proof.
  revert n prev pos. induction rest as [|x rest IH]; intros n prev pos; cbn [lazy].
  - destruct (if (lo <=? n)%nat then k (Cursor prev pos []) else None) as [res'|] eqn:E;
      [|done].
    intros [= ->]. destruct (lo <=? n)%nat; [|done].
    exists [], []. cbn [length app]. rewrite Nat.add_0_r.
    repeat split; [done|done|]. intros i Hi. cbn in Hi. lia.
  - destruct (if (lo <=? n)%nat then k (Cursor prev pos (x :: rest)) else None)
      as [res'|] eqn:E.
    + intros [= ->]. destruct (lo <=? n)%nat; [|done].
      exists [], (x :: rest). cbn [length app]. rewrite Nat.add_0_r.
      repeat split; [done|done|]. intros i Hi. cbn in Hi. lia.
    + destruct (p x && below n hi) eqn:Hx; [|done].
      apply andb_true_iff in Hx as [Hpx _]. intros H.
      destruct (IH _ _ _ H) as (run & rest' & -> & Hrun & Hk & Hnone).
      exists (x :: run), rest'. cbn [length app]. rewrite Nat.add_succ_r, prev_after_cons.
      repeat split; [by constructor|done|].
      intros [|i] Hi Hlo.
      * cbn [take drop app]. rewrite Nat.add_0_r in *.
        apply Nat.leb_le in Hlo. by rewrite Hlo in E.
      * cbn [take drop]. rewrite prev_after_cons, Nat.add_succ_r.
        apply Hnone; cbn in Hi; lia.
Qed.

(** A part of the pattern without group takes a piece of the text and
    leaves the groups as they are. *)
Lemma groupless_run r :
  groupless r = true ->
  forall (k : cursor -> gmap nat (list N) -> option (cursor * gmap nat (list N))) c g res,
  run r k c g = Some res ->
  exists piece c',
    k c' g = Some res
    /\ c_rest c = piece ++ c_rest c'
    /\ c_pos c' = (c_pos c + length piece)%nat.
Proof.
  induction r as [|a|r1 IH1 r2 IH2|r1 IH1 r2 IH2|n r1 IH1|p lo hi|p lo hi| | |r1 IH1];
    intros Hr k c g res; cbn [run groupless] in *.
  - intros Hk. exists [], c. cbn. by rewrite Nat.add_0_r.
  - destruct c as [prev pos rest]. cbn [c_rest c_pos].
    destruct rest as [|x rest]; [done|]. destruct (x =? a); [|done].
    intros Hk. exists [x], (Cursor (Some x) (S pos) rest). cbn. split; [done|]. split; [done|lia].
  - apply andb_true_iff in Hr as [Hr1 Hr2]. intros H.
    destruct (IH1 Hr1 _ _ _ _ H) as (p1 & c1 & H1 & Hrest1 & Hpos1).
    destruct (IH2 Hr2 _ _ _ _ H1) as (p2 & c2 & H2 & Hrest2 & Hpos2).
    exists (p1 ++ p2), c2. rewrite Hrest1, Hrest2, length_app, <- app_assoc.
    split; [done|]. split; [done|lia].
  - apply andb_true_iff in Hr as [Hr1 Hr2].
    destruct (run r1 k c g) as [res'|] eqn:E.
    + intros [= ->]. by apply (IH1 Hr1 _ _ _ _ E).
    + by apply IH2.
  - done.
  - intros H. destruct (greedy_shape _ _ _ _ _ _ _ _ _ H)
      as (piece & rest' & prev' & Hrest & _ & _ & _ & Hk).
    by exists piece, (Cursor prev' (c_pos c + length piece) rest').
  - intros H. destruct (lazy_shape _ _ _ _ _ _ _ _ _ H)
      as (piece & rest' & Hrest & _ & Hk & _).
    by eexists piece, (Cursor _ (c_pos c + length piece) rest').
  - destruct (at_bol c); [|done]. intros Hk. exists [], c. cbn. by rewrite Nat.add_0_r.
  - destruct (at_end c); [|done]. intros Hk. exists [], c. cbn. by rewrite Nat.add_0_r.
  - destruct (run r1 _ c g) as [[c1 g1]|] eqn:E; [|done]. intros Hk.
    destruct (IH1 Hr _ _ _ _ E) as (p1 & c1' & [= -> ->] & _).
    exists [], c. cbn. by rewrite Nat.add_0_r.
Qed.

(** A group around a repetition captures the characters taken. *)
Lemma group_greedy_shape n p lo hi k c (g : gmap nat (list N)) res :
  run (RGroup n (RGreedy p lo hi)) k c g = Some res ->
  exists text c',
    k c' (<[n := text]> g) = Some res
    /\ c_rest c = text ++ c_rest c'
    /\ c_pos c' = (c_pos c + length text)%nat
    /\ Forall (fun x => p x = true) text
    /\ (lo <= length text)%nat
    /\ match hi with Some h => (length text <= h)%nat | None => True end.
Proof.
  rewrite run_group, run_greedy. intros H.
  destruct (greedy_shape _ _ _ _ _ _ _ _ _ H)
    as (text & rest' & prev' & Hrest & Htext & Hlo & Hhi & Hk).
  cbn [c_pos] in Hk.
  replace (c_pos c + length text - c_pos c)%nat with (length text) in Hk by lia.
  rewrite Hrest, take_app_length in Hk.
  exists text, (Cursor prev' (c_pos c + length text) rest').
  repeat split; [done|done|done|lia|].
  destruct hi as [h|]; [|done]. cbn in Hhi. lia.
Qed.

Lemma group_lazy_shape n p lo hi k c (g : gmap nat (list N)) res :
  run (RGroup n (RLazy p lo hi)) k c g = Some res ->
  exists text c',
    k c' (<[n := text]> g) = Some res
    /\ c_rest c = text ++ c_rest c'
    /\ c_pos c' = (c_pos c + length text)%nat
    /\ (forall i, (i < length text)%nat -> (lo <= i)%nat ->
          exists ci gi, c_rest ci = drop i text ++ c_rest c' /\ k ci gi = None).
Proof.
  rewrite run_group. destruct c as [prev pos rest]. rewrite run_lazy. intros H.
  destruct (lazy_shape _ _ _ _ _ _ _ _ _ H) as (text & rest' & -> & _ & Hk & Hnone).
  cbn [c_pos c_rest] in *.
  replace (pos + length text - pos)%nat with (length text) in Hk by lia.
  rewrite take_app_length in Hk.
  eexists text, (Cursor _ (pos + length text) rest').
  repeat split; [exact Hk|done..|].
  intros i Hi Hlo. eexists (Cursor _ _ _), _. split; [|by apply (Hnone i)]. done.
Qed.

Lemma scan_matches r skip prev pos rest m :
  m ∈ scan r skip prev pos rest ->
  exists prev' i,
    (i <= length rest)%nat
    /\ match_at r (Cursor prev' (pos + i) (drop i rest)) = Some m.
Proof.
  revert skip prev pos. induction rest as [|x rest IH]; intros skip prev pos Hm.
  - destruct skip; cbn [scan] in Hm; [|by apply elem_of_nil in Hm].
    destruct (match_at r _) as [m'|] eqn:E; [|by apply elem_of_nil in Hm].
    apply list_elem_of_singleton in Hm as ->.
    exists prev, 0%nat. rewrite Nat.add_0_r. by split.
  - assert (forall skip', m ∈ scan r skip' (Some x) (S pos) rest ->
              exists prev' i, (i <= length (x :: rest))%nat
                /\ match_at r (Cursor prev' (pos + i) (drop i (x :: rest))) = Some m) as Hnext.
    { intros skip' H. destruct (IH _ _ _ H) as (prev' & i & Hi & Hmatch).
      exists prev', (S i). cbn [length drop]. rewrite Nat.add_succ_r.
      split; [lia|done]. }
    destruct skip; cbn [scan] in Hm; [|by eapply Hnext].
    destruct (match_at r _) as [m'|] eqn:E; [|by eapply Hnext].
    apply elem_of_cons in Hm as [->|Hm]; [|by eapply Hnext].
    exists prev, 0%nat. rewrite Nat.add_0_r. cbn [drop]. split; [lia|done].
Qed.

(** The matches come in the order of the document and do not overlap. *)
Lemma scan_in_order r skip prev pos rest : in_order (scan r skip prev pos rest).
Proof.
  revert skip prev pos. induction rest as [|x rest IH]; intros skip prev pos.
  - destruct skip; cbn [scan]; [|done].
    destruct (match_at r _); [|done]. split; [|done]. by intros m' ?%elem_of_nil.
  - destruct skip; cbn [scan]; [|apply IH].
    destruct (match_at r _) as [m|]; [|apply IH].
    split; [|apply IH]. intros m' Hm'. apply scan_start_ge in Hm'. lia.
Qed.

End shape_facts.

(** ** The matches of the pattern *)

Section pattern_matches.

Context `{U : UnicodeDecimal}.

Lemma look_shape k c (g : gmap nat (list N)) res :
  run (RLook (RAlt next_header REnd)) k c g = Some res ->
  k c g = Some res /\ (c_rest c = [] \/ header_ahead (c_rest c) = true).
Proof.
  cbn [run].
  destruct (run next_header _ c g) as [[c1 g1]|] eqn:E.
  - destruct (groupless_run next_header eq_refl _ _ _ _ E) as (piece & c' & [= -> <-] & _).
    intros Hk. split; [done|right].
    unfold header_ahead.
    rewrite <- (run_text next_header eq_refl (fun c g => Some (c, g)) (fun c g => Some (c, g))
                  ltac:(done) c (start_of (c_rest c)) g ∅ eq_refl).
    by rewrite E.
  - unfold at_end. destruct (c_rest c); [|done]. intros Hk. split; [done|by left].
Qed.

Lemma look_fails k c (g : gmap nat (list N)) :
  (forall c' g', k c' g' <> None) ->
  run (RLook (RAlt next_header REnd)) k c g = None ->
  header_ahead (c_rest c) = false /\ c_rest c <> [].
Proof.
  intros Hk. cbn [run].
  destruct (run next_header _ c g) as [[c1 g1]|] eqn:E.
  - intros H. by apply Hk in H.
  - unfold at_end. destruct (c_rest c) as [|x rest] eqn:Er.
    + intros H. by apply Hk in H.
    + intros _. split; [|done]. unfold header_ahead.
      rewrite <- (run_text next_header eq_refl (fun c g => Some (c, g)) (fun c g => Some (c, g))
                    ltac:(done) c (start_of (x :: rest)) g ∅ Er).
      by rewrite E.
Qed.

Lemma start_shape k c (g : gmap nat (list N)) res :
  run (RAlt RBol (RChar nl)) k c g = Some res ->
  exists start c1,
    k c1 g = Some res
    /\ c_rest c = start ++ c_rest c1
    /\ c_pos c1 = (c_pos c + length start)%nat
    /\ (start = [] \/ start = [nl]).
Proof.
  cbn [run].
  destruct (if at_bol c then k c g else None) as [res'|] eqn:E.
  - intros [= ->]. destruct (at_bol c); [|done].
    exists [], c. cbn. rewrite Nat.add_0_r. repeat split; by try left.
  - destruct c as [prev pos [|x rest]]; cbn [c_rest c_pos]; [done|].
    destruct (N.eqb_spec x nl) as [->|]; [|done]. intros Hk.
    exists [nl], (Cursor (Some nl) (S pos) rest). cbn.
    repeat split; [done|lia|by right].
Qed.

(** What a match of the pattern is made of: an optional newline, one or two
    [#], a middle part, decimal digits, a separator, the text of group 3,
    and after it the end of the document or the start of a day section, of
    which there is none inside the text. *)
Lemma match_anatomy c m :
  match_at pattern c = Some m ->
  exists start hashes middle digits sep text rest,
    c_rest c = start ++ hashes ++ middle ++ digits ++ sep ++ text ++ rest
    /\ (start = [] \/ start = [nl])
    /\ Forall (fun x => is_hash x = true) hashes
    /\ (1 <= length hashes <= 2)%nat
    /\ Forall (fun x => is_decimal x = true) digits
    /\ (1 <= length digits)%nat
    /\ m_groups m = <[3%nat := text]> (<[2%nat := digits]> (<[1%nat := hashes]> ∅))
    /\ m_start m = c_pos c
    /\ m_end m
       = (c_pos c + length (start ++ hashes ++ middle ++ digits ++ sep ++ text))%nat
    /\ (rest = [] \/ header_ahead rest = true)
    /\ no_header_inside text rest = true.
Proof.
  unfold match_at.
  destruct (run pattern _ c ∅) as [[cf gf]|] eqn:E; [|done]. intros [= <-].
  cbn [m_start m_end m_groups].
  rewrite pattern_start, run_seq in E.
  destruct (start_shape _ _ _ _ E) as (start & c1 & E1 & Hr1 & Hp1 & Hstart).
  unfold pattern_after_start, pattern in E1. cbn [rcat foldr] in E1.
  rewrite run_seq in E1.
  destruct (group_greedy_shape _ _ _ _ _ _ _ _ E1)
    as (hashes & c2 & E2 & Hr2 & Hp2 & Hhashes & Hlo2 & Hhi2).
  rewrite run_seq in E2.
  apply groupless_run in E2 as (m1 & c3 & E3 & Hr3 & Hp3); [|done].
  rewrite run_seq in E3.
  apply groupless_run in E3 as (m2 & c4 & E4 & Hr4 & Hp4); [|done].
  rewrite run_seq in E4.
  apply groupless_run in E4 as (m3 & c5 & E5 & Hr5 & Hp5); [|done].
  rewrite run_seq in E5.
  destruct (group_greedy_shape _ _ _ _ _ _ _ _ E5)
    as (digits & c6 & E6 & Hr6 & Hp6 & Hdigits & Hlo6 & _).
  rewrite run_seq in E6.
  apply groupless_run in E6 as (sep & c7 & E7 & Hr7 & Hp7); [|done].
  rewrite run_seq in E7.
  destruct (group_lazy_shape _ _ _ _ _ _ _ _ E7) as (text & c8 & E8 & Hr8 & Hp8 & Hnone).
  rewrite run_seq in E8.
  apply look_shape in E8 as [E8 Hahead]. cbn [run] in E8. injection E8 as <- <-.
  exists start, hashes, (m1 ++ m2 ++ m3), digits, sep, text, (c_rest c8).
  repeat split; try done.
  - rewrite Hr1, Hr2, Hr3, Hr4, Hr5, Hr6, Hr7, Hr8. by rewrite <- !app_assoc.
  - rewrite !length_app. lia.
  - unfold no_header_inside. apply forallb_forall. intros i Hi%in_seq.
    destruct (Hnone i) as (ci & gi & Hci & Hki); [lia..|].
    rewrite run_seq in Hki. apply look_fails in Hki as [Hki _]; [|done].
    rewrite Hci in Hki. rewrite drop_app.
    replace (i - length text)%nat with 0%nat by lia. rewrite drop_0. by rewrite Hki.
Qed.

End pattern_matches.

(** ** What parse_readme takes from a document *)

Section found_matches.

Context `{U : UnicodeDecimal}.

Lemma finditer_match content m :
  m ∈ finditer pattern content ->
  exists prev i,
    (i <= length content)%nat
    /\ match_at pattern (Cursor prev i (drop i content)) = Some m.
Proof. intros H. by apply scan_matches in H. Qed.

Lemma hashes_one_or_two hashes :
  Forall (fun x => is_hash x = true) hashes -> (1 <= length hashes <= 2)%nat ->
  hashes = lit "#" \/ hashes = lit "##".
Proof.
  intros Hh Hlen. destruct hashes as [|a [|b [|c hashes]]]; cbn in Hlen; [lia| | |lia].
  - apply Forall_cons in Hh as [Ha%N.eqb_eq _]. left. by subst.
  - apply Forall_cons in Hh as [Ha%N.eqb_eq Hh].
    apply Forall_cons in Hh as [Hb%N.eqb_eq _]. right. by subst.
Qed.

Lemma int_of_digits_nonneg digits :
  (forall c, is_decimal c = true -> (0 <= decimal_value c)%Z) ->
  Forall (fun x => is_decimal x = true) digits ->
  (0 <= int_of_digits digits)%Z.
Proof.
  intros Hval Hd. unfold int_of_digits.
  assert (forall acc, (0 <= acc)%Z ->
            (0 <= fold_left (fun a d => (10 * a + decimal_value d)%Z) digits acc)%Z) as H.
  { induction Hd as [|d digits Hd _ IH]; intros acc Hacc; [done|].
    cbn [fold_left]. apply IH. specialize (Hval d Hd). lia. }
  by apply H.
Qed.

Lemma parse_readme_from_match content day_num description :
  parse_readme (Some content) !! day_num = Some description ->
  exists m, m ∈ finditer pattern content
            /\ day_of m = day_num /\ description_of m = description.
Proof.
  unfold parse_readme. rewrite fold_record_lookup, lookup_empty.
  destruct (last _) as [m|] eqn:E; [|done]. intros [= <-].
  apply last_Some_elem_of, list_elem_of_filter in E as [Hd Hm]. by exists m.
Qed.

End found_matches.

Lemma header_groups_shape `{U : UnicodeDecimal} content m :
  m ∈ finditer pattern content ->
  (group m 1 = lit "#" \/ group m 1 = lit "##")
  /\ group m 2 <> []
  /\ Forall (fun c => is_decimal c = true) (group m 2).
Proof.
  intros (prev & i & _ & Hm)%finditer_match.
  destruct (match_anatomy _ _ Hm)
    as (start & hashes & middle & digits & sep & text & rest & _ & _ & Hh & Hhl & Hd & Hdl
        & Hg & _).
  unfold group. rewrite Hg.
  rewrite lookup_insert_ne, lookup_insert_ne, lookup_insert_eq by done.
  rewrite lookup_insert_ne, lookup_insert_eq by done. cbn [default].
  split; [by apply hashes_one_or_two|]. split; [|done].
  intros E. unfold id in E. rewrite E in Hdl. cbn in Hdl. lia.
Qed.

(** X9.  In every match that [parse_readme] goes through, group 1 is [#] or
    [##] and group 2 is a non-empty run of decimal digits: [int] is only
    ever given digits. *)
Theorem match_header_groups `{U : UnicodeDecimal} (content : list N) (m : rmatch) :
  m ∈ finditer pattern content ->
  (group m 1 = lit "#" \/ group m 1 = lit "##")
  /\ group m 2 <> []
  /\ Forall (fun c => is_decimal c = true) (group m 2).
Proof. apply header_groups_shape. Qed.

Lemma match_header_groups_witness :
  let m := Match 0 12 (<[3%nat := lit "text"]> (<[2%nat := lit "7"]> (<[1%nat := lit "#"]> ∅))) in
  (group m 1 = lit "#" \/ group m 1 = lit "##")
  /\ group m 2 <> []
  /\ Forall (fun c => is_decimal (UnicodeDecimal := ascii_decimal) c = true) (group m 2).
Proof.
  apply (match_header_groups (U := ascii_decimal) (lit "# Day 7:text")).
  vm_compute. left.
Defined.

(** X10.  The text of group 3 is taken from the document as it stands: it is
    the piece of the document that ends where the match ends; after it comes
    the end of the document or the start of a day section, and no day
    section starts inside it. *)
Theorem match_text_in_document `{U : UnicodeDecimal} (content : list N) (m : rmatch) :
  m ∈ finditer pattern content ->
  exists before after,
    content = before ++ group m 3 ++ after
    /\ length (before ++ group m 3) = m_end m
    /\ (after = [] \/ header_ahead after = true)
    /\ no_header_inside (group m 3) after = true.
Proof.
  intros (prev & i & Hi & Hm)%finditer_match.
  destruct (match_anatomy _ _ Hm)
    as (start & hashes & middle & digits & sep & text & rest & Hrest & _ & _ & _ & _ & _
        & Hg & _ & Hend & Hafter & Hinside).
  cbn [c_rest c_pos] in *.
  unfold group. rewrite Hg, lookup_insert_eq. cbn [default]. unfold id.
  exists (take i content ++ start ++ hashes ++ middle ++ digits ++ sep), rest.
  split; [|split; [|done]].
  - rewrite <- (take_drop i content) at 1. rewrite Hrest. by rewrite <- !app_assoc.
  - rewrite Hend, !length_app, length_take. lia.
Qed.

Lemma match_text_in_document_witness :
  let m := Match 0 12 (<[3%nat := lit "text"]> (<[2%nat := lit "7"]> (<[1%nat := lit "#"]> ∅))) in
  exists before after,
    lit "# Day 7:text" = before ++ group m 3 ++ after
    /\ length (before ++ group m 3) = m_end m
    /\ (after = [] \/ header_ahead (U := ascii_decimal) after = true)
    /\ no_header_inside (U := ascii_decimal) (group m 3) after = true.
Proof.
  apply (match_text_in_document (U := ascii_decimal) (lit "# Day 7:text")).
  vm_compute. left.
Defined.

(** X11.  When the digits of the table have values that are not negative, no
    day number of the mapping is negative. *)
Theorem day_numbers_nonnegative `{U : UnicodeDecimal} (readme : option (list N))
    (day_num : Z) (description : list N) :
  (forall c, is_decimal c = true -> (0 <= decimal_value c)%Z) ->
  parse_readme readme !! day_num = Some description ->
  (0 <= day_num)%Z.
Proof.
  intros Hval. destruct readme as [content|]; [|done].
  intros (m & Hm & <- & _)%parse_readme_from_match.
  apply int_of_digits_nonneg; [done|]. by apply (header_groups_shape content).
Qed.

Lemma day_numbers_nonnegative_witness : (0 <= 7)%Z.
Proof.
  apply (day_numbers_nonnegative (U := ascii_decimal) (Some (lit "# Day 7:text")) 7 (lit "text")).
  - intros c Hc. cbn in *. apply andb_true_iff in Hc as [Hc%N.leb_le _]. lia.
  - vm_compute. reflexivity.
Defined.

(** X12.  A document without [#] has no day section: the mapping is empty. *)
Theorem no_hash_no_days `{U : UnicodeDecimal} (content : list N) :
  35 ∉ content -> parse_readme (Some content) = ∅.
Proof.
  intros Hno. unfold parse_readme.
  destruct (finditer pattern content) as [|m ms] eqn:E; [done|exfalso].
  assert (m ∈ finditer pattern content) as Hm by (rewrite E; by left).
  apply finditer_match in Hm as (prev & i & Hi & Hm).
  destruct (match_anatomy _ _ Hm)
    as (start & hashes & middle & digits & sep & text & rest & Hrest & _ & Hh & Hhl & _).
  cbn [c_rest] in Hrest. apply Hno.
  rewrite <- (take_drop i content), Hrest.
  destruct hashes as [|h hashes]; [cbn in Hhl; lia|].
  apply Forall_cons in Hh as [Hh%N.eqb_eq _]. subst h.
  apply elem_of_app. right. apply elem_of_app. right. by left.
Qed.

Lemma no_hash_no_days_witness :
  parse_readme (U := ascii_decimal) (Some (lit "Day 1: no header")) = ∅.
Proof. apply no_hash_no_days. eval_lits. not_in_list. Defined.

(** X13.  The matches that [parse_readme] goes through come in the order of
    the document and do not overlap: every match ends before the ones
    after it start. *)
Theorem sections_in_order `{U : UnicodeDecimal} (content : list N) :
  in_order (finditer pattern content).
Proof. apply scan_in_order. Qed.

(** ** get_language and get_day_files *)

Lemma split_on_chars sep s piece c : piece ∈ split_on sep s -> c ∈ piece -> c ∈ s.
Proof.
  revert piece. induction s as [|x s IH]; intros piece Hp Hc; cbn [split_on] in Hp.
  - apply list_elem_of_singleton in Hp. by subst.
  - destruct (x =? sep).
    + apply elem_of_cons in Hp as [->|Hp]; [by apply elem_of_nil in Hc|].
      right. by apply (IH piece).
    + pose proof (split_on_nonempty sep s) as Hne.
      destruct (split_on sep s) as [|p ps]; [done|].
      apply elem_of_cons in Hp as [->|Hp].
      * apply elem_of_cons in Hc as [->|Hc]; [by left|].
        right. apply (IH p); [by left|done].
      * right. apply (IH piece); [by right|done].
Qed.

(** The components of a path that count for its name. *)
Lemma path_name_cases filename :
  (path_name filename = []
   /\ filter (fun x => x <> [] /\ x <> lit ".") (split_on 47 filename) = [])
  \/ (path_name filename <> [] /\ path_name filename <> lit "."
      /\ path_name filename ∈ split_on 47 filename
      /\ last (filter (fun x => x <> [] /\ x <> lit ".") (split_on 47 filename))
         = Some (path_name filename)).
Proof.
  unfold path_name.
  destruct (last _) as [name|] eqn:E; cbn [default].
  - right. apply last_Some_elem_of, list_elem_of_filter in E as [[? ?] ?]. done.
  - left. by apply last_None in E.
Qed.

Lemma path_name_chars filename c : c ∈ path_name filename -> c ∈ filename.
Proof.
  destruct (path_name_cases filename) as [[-> _]|(_ & _ & Hin & _)].
  - intros H. by apply elem_of_nil in H.
  - by apply (split_on_chars 47).
Qed.

Lemma path_name_idemp filename : path_name (path_name filename) = path_name filename.
Proof.
  destruct (path_name_cases filename) as [[-> _]|(Hne & Hdot & Hin & _)]; [done|].
  apply (path_name_last_component []); [by left| |done|done].
  by apply (split_on_pieces 47 filename).
Qed.

Lemma path_name_join dir rel :
  path_name rel <> [] -> path_name (join_path dir rel) = path_name rel.
Proof.
  intros Hne. destruct (path_name_cases rel) as [[? _]|(_ & _ & _ & Hlast)]; [done|].
  unfold path_name at 1, join_path.
  by rewrite split_on_app, filter_app, last_app, Hlast.
Qed.

Lemma path_name_join_empty dir rel :
  path_name rel = [] -> path_name (join_path dir rel) = path_name dir.
Proof.
  intros He. destruct (path_name_cases rel) as [[_ Hnil]|(? & _)]; [|done].
  unfold path_name, join_path.
  by rewrite split_on_app, filter_app, Hnil, app_nil_r.
Qed.

Lemma path_suffix_name filename : path_suffix (path_name filename) = path_suffix filename.
Proof. unfold path_suffix. by rewrite path_name_idemp. Qed.

Lemma path_suffix_no_dot filename : 46 ∉ filename -> path_suffix filename = [].
Proof.
  intros Hno. unfold path_suffix. rewrite rfind_absent; [done|].
  intros H. by apply Hno, path_name_chars.
Qed.

Lemma day_dir_name_no_dot day_num : 46 ∉ day_dir_name day_num.
Proof.
  unfold day_dir_name, format_02d. intros H.
  apply elem_of_app in H as [H|H]; [revert H; eval_lits; not_in_list|].
  assert (46 ∈ str_of_int day_num) as Hin.
  { destruct (_ <? _)%nat; [|done]. by apply elem_of_cons in H as [?|?]. }
  apply str_of_int_chars in Hin. unfold int_char in Hin. lia.
Qed.

Lemma code_extensions_dot ext : ext ∈ code_extensions -> ext <> [].
Proof.
  unfold code_extensions. rewrite !elem_of_union, !elem_of_singleton.
  intros H ->. by repeat destruct H as [H|H].
Qed.

Lemma code_extensions_tag ext :
  ext ∈ code_extensions -> is_Some (ext_map !! ext) /\ ext_map !! ext <> Some (lit "clike").
Proof.
  unfold code_extensions. rewrite !elem_of_union, !elem_of_singleton.
  intros H. repeat destruct H as [H|H]; subst;
    (split; [vm_compute; eauto|vm_compute; discriminate]).
Qed.

(** The suffix that [get_day_files] tests is the suffix of the path
    relative to the directory of the day. *)
Lemma collected_suffix day_num rel :
  path_suffix (join_path (day_dir_name day_num) rel) ∈ code_extensions ->
  path_suffix (join_path (day_dir_name day_num) rel) = path_suffix rel.
Proof.
  intros Hin. destruct (decide (path_name rel = [])) as [He|Hne].
  - exfalso. apply code_extensions_dot in Hin. apply Hin.
    unfold path_suffix. rewrite path_name_join_empty by done.
    apply (path_suffix_no_dot (day_dir_name day_num)), day_dir_name_no_dot.
  - unfold path_suffix. by rewrite path_name_join.
Qed.

Lemma fold_collect_entry day_dir entries printed files :
  fold_left (collect_entry day_dir) entries (printed, files)
  = (printed ++ omap (read_failure day_dir) entries,
     files ++ omap (kept_file day_dir) entries).
Proof.
  revert printed files. induction entries as [|e entries IH]; intros printed files.
  - by rewrite !app_nil_r.
  - cbn [fold_left omap list_omap]. unfold collect_entry at 2, read_failure at 1, kept_file at 1.
    destruct (e_is_file e && _); [destruct (e_read e)|];
      cbn [fst snd]; rewrite IH; by rewrite <- ?app_assoc.
Qed.

(** X14.  The language tag of a path is the tag of its last component: the
    directories on the way to a file have no part in it. *)
Theorem get_language_last_component (filename : list N) :
  get_language filename = get_language (path_name filename).
Proof. unfold get_language. by rewrite path_suffix_name. Qed.

(** X15.  For a directory that exists, [get_day_files] goes through the
    entries one by one and in the order of the listing: it returns the
    regular files with a listed extension that could be read, with their
    paths relative to the directory, and prints one line for each such file
    that could not be read. *)
Theorem get_day_files_entries (dirs : list N -> option (list dir_entry)) (day_num : Z)
    (entries : list dir_entry) :
  dirs (day_dir_name day_num) = Some entries ->
  get_day_files dirs day_num
  = (omap (read_failure (day_dir_name day_num)) entries,
     omap (kept_file (day_dir_name day_num)) entries).
Proof. intros H. unfold get_day_files. rewrite H. apply fold_collect_entry. Qed.

Lemma get_day_files_entries_witness :
  let entries := [DirEntry (lit "a.cu") true (ReadOk (lit "x"));
                  DirEntry (lit "sub") false (ReadError (lit "is a directory"))] in
  get_day_files (fun _ => Some entries) 3
  = (omap (read_failure (day_dir_name 3)) entries,
     omap (kept_file (day_dir_name 3)) entries).
Proof. apply get_day_files_entries. reflexivity. Defined.

(** X16.  No file with a listed extension is passed over in silence: the
    files returned and the lines printed are together as many as the
    regular files of the listing with a listed extension. *)
Theorem get_day_files_accounts (dirs : list N -> option (list dir_entry)) (day_num : Z)
    (entries : list dir_entry) :
  dirs (day_dir_name day_num) = Some entries ->
  (length (get_day_files dirs day_num).1 + length (get_day_files dirs day_num).2
   = length (filter (fun e => e_is_file e = true
                              /\ path_suffix (join_path (day_dir_name day_num) (e_rel e))
                                   ∈ code_extensions) entries))%nat.
Proof.
  intros H. unfold get_day_files. rewrite H, fold_collect_entry. cbn [fst snd app].
  clear H. induction entries as [|e entries IH]; [done|].
  cbn [omap list_omap]. rewrite filter_cons.
  unfold read_failure at 1, kept_file at 1.
  destruct (e_is_file e) eqn:Ef; cbn [andb].
  - case_bool_decide as Hs.
    + rewrite decide_True by done. destruct (e_read e); cbn [length]; lia.
    + rewrite decide_False by (intros [_ ?]; done). done.
  - rewrite decide_False by (intros [? _]; done). done.
Qed.

Lemma get_day_files_accounts_witness :
  let entries := [DirEntry (lit "a.cu") true (ReadOk (lit "x"));
                  DirEntry (lit "b.py") true (ReadError (lit "denied"))] in
  (length (get_day_files (fun _ => Some entries) 3).1
   + length (get_day_files (fun _ => Some entries) 3).2
   = length (filter (fun e => e_is_file e = true
                              /\ path_suffix (join_path (day_dir_name 3) (e_rel e))
                                   ∈ code_extensions) entries))%nat.
Proof. apply get_day_files_accounts. reflexivity. Defined.

(** X17.  Every file that [get_day_files] returns has a language of the
    table: on a day page no collected file falls back to [clike]. *)
Theorem collected_files_have_language (dirs : list N -> option (list dir_entry))
    (day_num : Z) (filename content : list N) :
  (filename, content) ∈ (get_day_files dirs day_num).2 ->
  path_suffix filename ∈ code_extensions /\ get_language filename <> lit "clike".
Proof.
  unfold get_day_files. destruct (dirs _) as [entries|]; cbn [snd].
  - rewrite fold_collect_entry. cbn [snd app].
    intros (e & He & Hk)%list_elem_of_omap. unfold kept_file in Hk.
    destruct (e_is_file e); cbn [andb] in Hk; [|done].
    case_bool_decide as Hs; [|done].
    destruct (e_read e) as [c|]; [|done]. injection Hk as <- <-.
    rewrite (collected_suffix day_num (e_rel e) Hs) in Hs. split; [done|].
    apply code_extensions_tag in Hs as [[tag Ht] Hno].
    unfold get_language. rewrite Ht in *. intros E. apply Hno. f_equal. exact E.
  - intros H. by apply elem_of_nil in H.
Qed.

Lemma collected_files_have_language_witness :
  path_suffix (lit "src/a.cu") ∈ code_extensions
  /\ get_language (lit "src/a.cu") <> lit "clike".
Proof.
  apply (collected_files_have_language
           (fun _ => Some [DirEntry (lit "src/a.cu") true (ReadOk (lit "x"))]) 3
           (lit "src/a.cu") (lit "x")).
  vm_compute. left.
Defined.

Section day_directory.

Context `{U : UnicodeDecimal} {L : DecimalLaws U}.

(** X18.  The name of the directory of a day holds the number of the day
    in at least two digits, and reading the digits back gives the number. *)
Theorem format_02d_roundtrip (day_num : Z) :
  (0 <= day_num)%Z ->
  (2 <= length (format_02d day_num))%nat
  /\ int_of_digits (format_02d day_num) = day_num.
Proof.
  intros Hn. unfold format_02d.
  pose proof (str_of_int_nonnil day_num) as Hne.
  destruct (Nat.ltb_spec (length (str_of_int day_num)) 2) as [Hl|Hl].
  - split; [destruct (str_of_int day_num); [done|cbn [length]; lia]|].
    unfold int_of_digits. cbn [fold_left]. rewrite decimal_value_ascii by lia.
    by apply int_of_digits_str_of_int.
  - split; [done|]. by apply int_of_digits_str_of_int.
Qed.

End day_directory.

Lemma format_02d_roundtrip_witness :
  (2 <= length (format_02d 7))%nat
  /\ int_of_digits (U := ascii_decimal) (format_02d 7) = 7%Z.
Proof.
  apply (format_02d_roundtrip (U := ascii_decimal) (L := ascii_decimal_laws)). lia.
Defined.

(** ** main *)

Lemma day_path_inj a b : day_path a = day_path b -> a = b.
Proof.
  unfold day_path. intros H. apply app_inv_head, app_inv_tail in H.
  by apply str_of_int_injective.
Qed.

(** X19.  Different days have different page files: no day page is
    overwritten by the page of another day. *)
Theorem day_pages_distinct (a b : Z) : day_path a = day_path b -> a = b.
Proof. apply day_path_inj. Qed.

Lemma day_pages_distinct_witness : 7%Z = 7%Z.
Proof. apply (day_pages_distinct 7 7). reflexivity. Defined.

Lemma day_path_not_index day_num : day_path day_num <> index_path.
Proof. unfold day_path, index_path. eval_lits. intros [=]. Qed.

Lemma linked_day_href day_num : linked_file (day_href day_num) = day_path day_num.
Proof. unfold linked_file, day_href, day_path. eval_lits. done. Qed.

Lemma elem_of_range a b n : n ∈ range a b <-> (a <= n < b)%Z.
Proof. unfold range. rewrite elem_of_seqZ. lia. Qed.

Lemma docs_print line st : docs (print line st) = docs st.
Proof. done. Qed.

Lemma docs_print_all lines st : docs (print_all lines st) = docs st.
Proof. done. Qed.

Lemma docs_write_file path text st :
  docs (write_file path text st) = <[path := text]> (docs st).
Proof. done. Qed.

Section main_facts.

Context `{U : UnicodeDecimal}.

Lemma main_day_docs day_descriptions dirs st day_num :
  docs (main_day day_descriptions dirs st day_num)
  = <[day_path day_num :=
        generate_day_page day_num (get_description day_descriptions day_num)
          (get_day_files dirs day_num).2]> (docs st).
Proof. unfold main_day. by destruct (get_day_files dirs day_num). Qed.

Lemma fold_main_day_other day_descriptions dirs days st path :
  (forall day_num, day_num ∈ days -> day_path day_num <> path) ->
  docs (fold_left (main_day day_descriptions dirs) days st) !! path = docs st !! path.
Proof.
  revert st. induction days as [|d days IH]; intros st Hne; [done|].
  cbn [fold_left]. rewrite IH by (intros n Hn; apply Hne; by right).
  rewrite main_day_docs, lookup_insert_ne; [done|]. apply Hne. by left.
Qed.

Lemma fold_main_day_written day_descriptions dirs days st day_num :
  day_num ∈ days ->
  docs (fold_left (main_day day_descriptions dirs) days st) !! day_path day_num
  = Some (generate_day_page day_num (get_description day_descriptions day_num)
            (get_day_files dirs day_num).2).
Proof.
  revert st. induction days as [|d days IH]; intros st Hin.
  - by apply elem_of_nil in Hin.
  - cbn [fold_left]. destruct (decide (day_num ∈ days)) as [Hd|Hd]; [by apply IH|].
    apply elem_of_cons in Hin as [->|?]; [|done].
    rewrite fold_main_day_other.
    + by rewrite main_day_docs, lookup_insert_eq.
    + intros n Hn Heq. apply day_path_inj in Heq. by subst.
Qed.

Lemma main_docs readme dirs st :
  exists st0,
    docs st0 = <[index_path := generate_index_page (parse_readme readme)]> (docs st)
    /\ docs (main readme dirs st)
       = docs (fold_left (main_day (parse_readme readme) dirs) (range 1 101) st0).
Proof.
  unfold main. cbv zeta. rewrite docs_print.
  match goal with |- context [fold_left _ _ ?s] => exists s end.
  split; [|reflexivity].
  by rewrite !docs_print, docs_write_file, !docs_print, docs_print_all, docs_print.
Qed.

Lemma main_day_page_written readme dirs st day_num :
  (1 <= day_num <= 100)%Z ->
  docs (main readme dirs st) !! day_path day_num
  = Some (generate_day_page day_num (get_description (parse_readme readme) day_num)
            (get_day_files dirs day_num).2).
Proof.
  intros Hn. destruct (main_docs readme dirs st) as (st0 & _ & ->).
  apply fold_main_day_written, elem_of_range. lia.
Qed.

End main_facts.

(** X20.  After a run the index page is in [docs/index.html]; it is the page
    generated from the descriptions of README.md, and it is not overwritten
    by a day page. *)
Theorem main_writes_index `{U : UnicodeDecimal} (readme : option (list N))
    (dirs : list N -> option (list dir_entry)) (st : run_state) :
  docs (main readme dirs st) !! index_path
  = Some (generate_index_page (parse_readme readme)).
Proof.
  destruct (main_docs readme dirs st) as (st0 & Hst0 & ->).
  rewrite fold_main_day_other.
  - by rewrite Hst0, lookup_insert_eq.
  - intros n _. apply day_path_not_index.
Qed.



(** X22.  A run writes the index page and the hundred day pages and nothing
    else: every other file of the output directory is as it was. *)
Theorem main_keeps_other_files `{U : UnicodeDecimal} (readme : option (list N))
    (dirs : list N -> option (list dir_entry)) (st : run_state) (path : list N) :
  path <> index_path ->
  (forall day_num, (1 <= day_num <= 100)%Z -> path <> day_path day_num) ->
  docs (main readme dirs st) !! path = docs st !! path.
Proof.
  intros Hi Hd. destruct (main_docs readme dirs st) as (st0 & Hst0 & ->).
  rewrite fold_main_day_other.
  - by rewrite Hst0, lookup_insert_ne.
  - intros n Hn%elem_of_range Heq. apply (Hd n); [lia|done].
Qed.

Lemma main_keeps_other_files_witness :
  let st := RunState [] {[ lit "docs/day-0.html" := lit "kept" ]} in
  docs (main (U := ascii_decimal) None (fun _ => None) st) !! lit "docs/day-0.html"
  = docs st !! lit "docs/day-0.html".
Proof.
  apply main_keeps_other_files.
  - unfold index_path. eval_lits. intros [=].
  - intros n Hn Heq. change (lit "docs/day-0.html") with (day_path 0) in Heq.
    apply day_path_inj in Heq. lia.
Defined.

(** X23.  The links of the navigation bar of a day page lead to pages that
    the run has written: for a day from 1 to 100 each of the two links is
    either left out or names the file of a day page in the output
    directory. *)
Theorem nav_links_resolve `{U : UnicodeDecimal} (readme : option (list N))
    (dirs : list N -> option (list dir_entry)) (st : run_state) (day_num : Z) :
  (1 <= day_num <= 100)%Z ->
  (prev_link day_num = []
   \/ exists tail,
        prev_link day_num = lit "<a href=" ++ dq ++ day_href (day_num - 1) ++ dq ++ tail
        /\ is_Some (docs (main readme dirs st) !! linked_file (day_href (day_num - 1))))
  /\ (next_link day_num = []
      \/ exists tail,
           next_link day_num = lit "<a href=" ++ dq ++ day_href (day_num + 1) ++ dq ++ tail
           /\ is_Some (docs (main readme dirs st) !! linked_file (day_href (day_num + 1)))).
Proof.
  intros Hn. unfold prev_link, next_link. split.
  - destruct (Z.ltb_spec 1 day_num) as [Hlt|_]; [right|by left].
    eexists. split.
    + unfold prev_a, prev_b, day_href. rewrite <- !app_assoc. reflexivity.
    + rewrite linked_day_href, main_day_page_written by lia. done.
  - destruct (Z.ltb_spec day_num 100) as [Hlt|_]; [right|by left].
    eexists. split.
    + unfold next_a, next_b, day_href. rewrite <- !app_assoc. reflexivity.
    + rewrite linked_day_href, main_day_page_written by lia. done.
Qed.

Lemma nav_links_resolve_witness :
  (prev_link 7 = []
   \/ exists tail,
        prev_link 7 = lit "<a href=" ++ dq ++ day_href (7 - 1) ++ dq ++ tail
        /\ is_Some (docs (main (U := ascii_decimal) None (fun _ => None) (RunState [] ∅))
                      !! linked_file (day_href (7 - 1))))
  /\ (next_link 7 = []
      \/ exists tail,
           next_link 7 = lit "<a href=" ++ dq ++ day_href (7 + 1) ++ dq ++ tail
           /\ is_Some (docs (main (U := ascii_decimal) None (fun _ => None) (RunState [] ∅))
                         !! linked_file (day_href (7 + 1)))).
Proof. apply nav_links_resolve. lia. Defined.

(** X24.  The link of the card of a day on the index page leads to the page
    of that day, which the run has written. *)
Theorem card_links_resolve `{U : UnicodeDecimal} (readme : option (list N))
    (dirs : list N -> option (list dir_entry)) (st : run_state) (day_num : Z)
    (preview : list N) :
  (1 <= day_num <= 100)%Z ->
  exists head tail,
    day_card day_num preview
    = head ++ lit "<a href=" ++ dq ++ day_href day_num ++ dq ++ tail
    /\ is_Some (docs (main readme dirs st) !! linked_file (day_href day_num)).
Proof.
  intros Hn.
  exists (card_html_open ++ str_of_int day_num ++ card_html_preview ++ preview
            ++ lit "</div>
            ").
  eexists. split.
  - unfold day_card, card_html_link, card_html_close, day_href.
    rewrite <- !app_assoc. by do 4 f_equal.
  - rewrite linked_day_href, main_day_page_written by lia. done.
Qed.

Lemma card_links_resolve_witness :
  exists head tail,
    day_card 7 (lit "preview")
    = head ++ lit "<a href=" ++ dq ++ day_href 7 ++ dq ++ tail
    /\ is_Some (docs (main (U := ascii_decimal) None (fun _ => None) (RunState [] ∅))
                  !! linked_file (day_href 7)).
Proof. apply card_links_resolve. lia. Defined.

(** ** The file sections of a day page *)

(** X25.  The sections of the files of a day stand in the page in the order
    of the list: the sections of two lists of files put together are the
    sections of the first followed by those of the second. *)
Theorem files_html_app (files1 files2 : list (list N * list N)) :
  files1 <> [] -> files2 <> [] ->
  files_html (files1 ++ files2) = files_html files1 ++ files_html files2.
Proof.
  intros H1 H2. rewrite !files_html_sections; [|done|done|by destruct files1].
  by rewrite fmap_app, concat_app.
Qed.

Lemma files_html_app_witness :
  files_html ([(lit "a.cu", lit "x")] ++ [(lit "b.py", lit "y")])
  = files_html [(lit "a.cu", lit "x")] ++ files_html [(lit "b.py", lit "y")].
Proof. apply files_html_app; discriminate. Defined.
